(** * radars: the frame / overlay lifecycle of [script6.js]

    A shallow embedding of the weather-tile viewer's script: the global
    variables of the script together with the part of the browser and of
    Leaflet they talk to (tile-layer objects, the layers attached to the map,
    interval timers) form one explicit state; every function and event handler
    of the script is a state transformer. *)

From Stdlib Require Import ZArith QArith.
From stdpp Require Import gmap strings pretty list fin_maps.

Open Scope Z_scope.
Set Warnings "-clear-no-such-hyp".

(** ** JavaScript values *)

(** The numbers the script computes with are frame indices and array lengths:
    integers far below 2^53, on which double arithmetic is exact, and [NaN],
    which [%] produces for a zero divisor.  ([-0] is identified with [0]: as a
    property key and in [+ 1], [- 1 + max], [% max] both behave alike.) *)
Inductive jsnum :=
  | Num (z : Z)
  | NaN.

#[global] Instance jsnum_eq_dec : EqDecision jsnum.
Proof. solve_decision. Defined.

#[global] Instance jsnum_countable : Countable jsnum.
Proof.
  refine (inj_countable'
            (fun n => match n with Num z => Some z | NaN => None end)
            (fun o => match o with Some z => Num z | None => NaN end) _).
  by intros [].
Defined.

Definition js_add (a b : jsnum) : jsnum :=
  match a, b with
  | Num x, Num y => Num (x + y)
  | _, _ => NaN
  end.

Definition js_sub (a b : jsnum) : jsnum :=
  match a, b with
  | Num x, Num y => Num (x - y)
  | _, _ => NaN
  end.

(** [a % b]: the remainder takes the sign of the dividend; a zero divisor
    gives [NaN]. *)
Definition js_rem (a b : jsnum) : jsnum :=
  match a, b with
  | Num x, Num y => if decide (y = 0) then NaN else Num (Z.rem x y)
  | _, _ => NaN
  end.

(** [Math.min] on two array lengths. *)
Definition js_min (a b : jsnum) : jsnum :=
  match a, b with
  | Num x, Num y => Num (Z.min x y)
  | _, _ => NaN
  end.

(** A value that may be [undefined] or [null] (a JSON field, an
    uninitialised [let]). *)
Inductive maybe (A : Type) :=
  | Undefined
  | Null
  | Val (a : A).
Arguments Undefined {A}.
Arguments Null {A}.
Arguments Val {A} a.

(** [x || d] for an [x] whose defined values are all truthy (objects,
    arrays). *)
Definition or_else {A} (x : maybe A) (d : A) : A :=
  match x with
  | Val a => a
  | _ => d
  end.

(** [x?.f]: [undefined] when [x] is [undefined] or [null]. *)
Definition opt_chain {A B} (x : maybe A) (f : A -> maybe B) : maybe B :=
  match x with
  | Val a => f a
  | _ => Undefined
  end.

(** [${x}] in a template literal, for a string-valued [x]. *)
Definition interp (x : maybe string) : string :=
  match x with
  | Undefined => "undefined"
  | Null => "null"
  | Val s => s
  end.

(** [arr[n]] on a dense array: only a non-negative integer below the length
    names an element, every other key reads [undefined]. *)
Definition arr_get {A} (arr : list A) (n : jsnum) : option A :=
  match n with
  | Num z => if decide (0 <= z) then arr !! Z.to_nat z else None
  | NaN => None
  end.

Definition arr_length {A} (arr : list A) : jsnum := Num (Z.of_nat (length arr)).

(** [forEach] visits array indices only. *)
Definition is_array_index (n : jsnum) : bool :=
  match n with
  | Num z => bool_decide (0 <= z)
  | NaN => false
  end.

(** ** Data *)

Record Frame := { path : string; time : Z }.

(** The metadata document of [weather-maps.json]; every field is optional. *)
Record RadarSection := { past : maybe (list Frame); nowcast : maybe (list Frame) }.
Record SatelliteSection := { infrared : maybe (list Frame) }.
Record WeatherMaps := {
  host : maybe string;
  radar : maybe RadarSection;
  satellite : maybe SatelliteSection
}.

(** A Leaflet tile layer object.  Objects live in [heap]; an object's
    identity (its handle) is its position there. *)
Record Layer := { url : string; opacity : Q; attribution : option string }.

Definition Layer_setOpacity (v : Q) (l : Layer) : Layer :=
  {| url := url l; opacity := v; attribution := attribution l |}.

Record State := {
  (* Leaflet and the browser *)
  heap : list Layer;
  mapLayers : gset nat;
  intervals : gset nat;
  lastTimer : nat;
  (* the script's globals *)
  baseLayer : nat;
  radarOverlayLayers : gmap jsnum nat;
  cloudOverlayLayers : gmap jsnum nat;
  currentFrame : jsnum;
  playInterval : maybe nat;
  radarFrames : list Frame;
  satelliteFrames : list Frame;
  apiHost : maybe string;
  rainOpacity : Q;
  cloudOpacity : Q;
  optionColorScheme : nat;
  optionSmoothData : nat;
  optionSnowColors : nat;
  optionExtension : string
}.

(** Assignment to one global, the others kept. *)
Definition set_heap (x : list Layer) (s : State) : State :=
  {| heap := x;
     mapLayers := mapLayers s;
     intervals := intervals s;
     lastTimer := lastTimer s;
     baseLayer := baseLayer s;
     radarOverlayLayers := radarOverlayLayers s;
     cloudOverlayLayers := cloudOverlayLayers s;
     currentFrame := currentFrame s;
     playInterval := playInterval s;
     radarFrames := radarFrames s;
     satelliteFrames := satelliteFrames s;
     apiHost := apiHost s;
     rainOpacity := rainOpacity s;
     cloudOpacity := cloudOpacity s;
     optionColorScheme := optionColorScheme s;
     optionSmoothData := optionSmoothData s;
     optionSnowColors := optionSnowColors s;
     optionExtension := optionExtension s |}.

Definition set_mapLayers (x : gset nat) (s : State) : State :=
  {| heap := heap s;
     mapLayers := x;
     intervals := intervals s;
     lastTimer := lastTimer s;
     baseLayer := baseLayer s;
     radarOverlayLayers := radarOverlayLayers s;
     cloudOverlayLayers := cloudOverlayLayers s;
     currentFrame := currentFrame s;
     playInterval := playInterval s;
     radarFrames := radarFrames s;
     satelliteFrames := satelliteFrames s;
     apiHost := apiHost s;
     rainOpacity := rainOpacity s;
     cloudOpacity := cloudOpacity s;
     optionColorScheme := optionColorScheme s;
     optionSmoothData := optionSmoothData s;
     optionSnowColors := optionSnowColors s;
     optionExtension := optionExtension s |}.

Definition set_intervals (x : gset nat) (s : State) : State :=
  {| heap := heap s;
     mapLayers := mapLayers s;
     intervals := x;
     lastTimer := lastTimer s;
     baseLayer := baseLayer s;
     radarOverlayLayers := radarOverlayLayers s;
     cloudOverlayLayers := cloudOverlayLayers s;
     currentFrame := currentFrame s;
     playInterval := playInterval s;
     radarFrames := radarFrames s;
     satelliteFrames := satelliteFrames s;
     apiHost := apiHost s;
     rainOpacity := rainOpacity s;
     cloudOpacity := cloudOpacity s;
     optionColorScheme := optionColorScheme s;
     optionSmoothData := optionSmoothData s;
     optionSnowColors := optionSnowColors s;
     optionExtension := optionExtension s |}.

Definition set_lastTimer (x : nat) (s : State) : State :=
  {| heap := heap s;
     mapLayers := mapLayers s;
     intervals := intervals s;
     lastTimer := x;
     baseLayer := baseLayer s;
     radarOverlayLayers := radarOverlayLayers s;
     cloudOverlayLayers := cloudOverlayLayers s;
     currentFrame := currentFrame s;
     playInterval := playInterval s;
     radarFrames := radarFrames s;
     satelliteFrames := satelliteFrames s;
     apiHost := apiHost s;
     rainOpacity := rainOpacity s;
     cloudOpacity := cloudOpacity s;
     optionColorScheme := optionColorScheme s;
     optionSmoothData := optionSmoothData s;
     optionSnowColors := optionSnowColors s;
     optionExtension := optionExtension s |}.

Definition set_baseLayer (x : nat) (s : State) : State :=
  {| heap := heap s;
     mapLayers := mapLayers s;
     intervals := intervals s;
     lastTimer := lastTimer s;
     baseLayer := x;
     radarOverlayLayers := radarOverlayLayers s;
     cloudOverlayLayers := cloudOverlayLayers s;
     currentFrame := currentFrame s;
     playInterval := playInterval s;
     radarFrames := radarFrames s;
     satelliteFrames := satelliteFrames s;
     apiHost := apiHost s;
     rainOpacity := rainOpacity s;
     cloudOpacity := cloudOpacity s;
     optionColorScheme := optionColorScheme s;
     optionSmoothData := optionSmoothData s;
     optionSnowColors := optionSnowColors s;
     optionExtension := optionExtension s |}.

Definition set_radarOverlayLayers (x : gmap jsnum nat) (s : State) : State :=
  {| heap := heap s;
     mapLayers := mapLayers s;
     intervals := intervals s;
     lastTimer := lastTimer s;
     baseLayer := baseLayer s;
     radarOverlayLayers := x;
     cloudOverlayLayers := cloudOverlayLayers s;
     currentFrame := currentFrame s;
     playInterval := playInterval s;
     radarFrames := radarFrames s;
     satelliteFrames := satelliteFrames s;
     apiHost := apiHost s;
     rainOpacity := rainOpacity s;
     cloudOpacity := cloudOpacity s;
     optionColorScheme := optionColorScheme s;
     optionSmoothData := optionSmoothData s;
     optionSnowColors := optionSnowColors s;
     optionExtension := optionExtension s |}.

Definition set_cloudOverlayLayers (x : gmap jsnum nat) (s : State) : State :=
  {| heap := heap s;
     mapLayers := mapLayers s;
     intervals := intervals s;
     lastTimer := lastTimer s;
     baseLayer := baseLayer s;
     radarOverlayLayers := radarOverlayLayers s;
     cloudOverlayLayers := x;
     currentFrame := currentFrame s;
     playInterval := playInterval s;
     radarFrames := radarFrames s;
     satelliteFrames := satelliteFrames s;
     apiHost := apiHost s;
     rainOpacity := rainOpacity s;
     cloudOpacity := cloudOpacity s;
     optionColorScheme := optionColorScheme s;
     optionSmoothData := optionSmoothData s;
     optionSnowColors := optionSnowColors s;
     optionExtension := optionExtension s |}.

Definition set_currentFrame (x : jsnum) (s : State) : State :=
  {| heap := heap s;
     mapLayers := mapLayers s;
     intervals := intervals s;
     lastTimer := lastTimer s;
     baseLayer := baseLayer s;
     radarOverlayLayers := radarOverlayLayers s;
     cloudOverlayLayers := cloudOverlayLayers s;
     currentFrame := x;
     playInterval := playInterval s;
     radarFrames := radarFrames s;
     satelliteFrames := satelliteFrames s;
     apiHost := apiHost s;
     rainOpacity := rainOpacity s;
     cloudOpacity := cloudOpacity s;
     optionColorScheme := optionColorScheme s;
     optionSmoothData := optionSmoothData s;
     optionSnowColors := optionSnowColors s;
     optionExtension := optionExtension s |}.

Definition set_playInterval (x : maybe nat) (s : State) : State :=
  {| heap := heap s;
     mapLayers := mapLayers s;
     intervals := intervals s;
     lastTimer := lastTimer s;
     baseLayer := baseLayer s;
     radarOverlayLayers := radarOverlayLayers s;
     cloudOverlayLayers := cloudOverlayLayers s;
     currentFrame := currentFrame s;
     playInterval := x;
     radarFrames := radarFrames s;
     satelliteFrames := satelliteFrames s;
     apiHost := apiHost s;
     rainOpacity := rainOpacity s;
     cloudOpacity := cloudOpacity s;
     optionColorScheme := optionColorScheme s;
     optionSmoothData := optionSmoothData s;
     optionSnowColors := optionSnowColors s;
     optionExtension := optionExtension s |}.

Definition set_radarFrames (x : list Frame) (s : State) : State :=
  {| heap := heap s;
     mapLayers := mapLayers s;
     intervals := intervals s;
     lastTimer := lastTimer s;
     baseLayer := baseLayer s;
     radarOverlayLayers := radarOverlayLayers s;
     cloudOverlayLayers := cloudOverlayLayers s;
     currentFrame := currentFrame s;
     playInterval := playInterval s;
     radarFrames := x;
     satelliteFrames := satelliteFrames s;
     apiHost := apiHost s;
     rainOpacity := rainOpacity s;
     cloudOpacity := cloudOpacity s;
     optionColorScheme := optionColorScheme s;
     optionSmoothData := optionSmoothData s;
     optionSnowColors := optionSnowColors s;
     optionExtension := optionExtension s |}.

Definition set_satelliteFrames (x : list Frame) (s : State) : State :=
  {| heap := heap s;
     mapLayers := mapLayers s;
     intervals := intervals s;
     lastTimer := lastTimer s;
     baseLayer := baseLayer s;
     radarOverlayLayers := radarOverlayLayers s;
     cloudOverlayLayers := cloudOverlayLayers s;
     currentFrame := currentFrame s;
     playInterval := playInterval s;
     radarFrames := radarFrames s;
     satelliteFrames := x;
     apiHost := apiHost s;
     rainOpacity := rainOpacity s;
     cloudOpacity := cloudOpacity s;
     optionColorScheme := optionColorScheme s;
     optionSmoothData := optionSmoothData s;
     optionSnowColors := optionSnowColors s;
     optionExtension := optionExtension s |}.

Definition set_apiHost (x : maybe string) (s : State) : State :=
  {| heap := heap s;
     mapLayers := mapLayers s;
     intervals := intervals s;
     lastTimer := lastTimer s;
     baseLayer := baseLayer s;
     radarOverlayLayers := radarOverlayLayers s;
     cloudOverlayLayers := cloudOverlayLayers s;
     currentFrame := currentFrame s;
     playInterval := playInterval s;
     radarFrames := radarFrames s;
     satelliteFrames := satelliteFrames s;
     apiHost := x;
     rainOpacity := rainOpacity s;
     cloudOpacity := cloudOpacity s;
     optionColorScheme := optionColorScheme s;
     optionSmoothData := optionSmoothData s;
     optionSnowColors := optionSnowColors s;
     optionExtension := optionExtension s |}.

Definition set_rainOpacity (x : Q) (s : State) : State :=
  {| heap := heap s;
     mapLayers := mapLayers s;
     intervals := intervals s;
     lastTimer := lastTimer s;
     baseLayer := baseLayer s;
     radarOverlayLayers := radarOverlayLayers s;
     cloudOverlayLayers := cloudOverlayLayers s;
     currentFrame := currentFrame s;
     playInterval := playInterval s;
     radarFrames := radarFrames s;
     satelliteFrames := satelliteFrames s;
     apiHost := apiHost s;
     rainOpacity := x;
     cloudOpacity := cloudOpacity s;
     optionColorScheme := optionColorScheme s;
     optionSmoothData := optionSmoothData s;
     optionSnowColors := optionSnowColors s;
     optionExtension := optionExtension s |}.

Definition set_cloudOpacity (x : Q) (s : State) : State :=
  {| heap := heap s;
     mapLayers := mapLayers s;
     intervals := intervals s;
     lastTimer := lastTimer s;
     baseLayer := baseLayer s;
     radarOverlayLayers := radarOverlayLayers s;
     cloudOverlayLayers := cloudOverlayLayers s;
     currentFrame := currentFrame s;
     playInterval := playInterval s;
     radarFrames := radarFrames s;
     satelliteFrames := satelliteFrames s;
     apiHost := apiHost s;
     rainOpacity := rainOpacity s;
     cloudOpacity := x;
     optionColorScheme := optionColorScheme s;
     optionSmoothData := optionSmoothData s;
     optionSnowColors := optionSnowColors s;
     optionExtension := optionExtension s |}.

Definition set_optionColorScheme (x : nat) (s : State) : State :=
  {| heap := heap s;
     mapLayers := mapLayers s;
     intervals := intervals s;
     lastTimer := lastTimer s;
     baseLayer := baseLayer s;
     radarOverlayLayers := radarOverlayLayers s;
     cloudOverlayLayers := cloudOverlayLayers s;
     currentFrame := currentFrame s;
     playInterval := playInterval s;
     radarFrames := radarFrames s;
     satelliteFrames := satelliteFrames s;
     apiHost := apiHost s;
     rainOpacity := rainOpacity s;
     cloudOpacity := cloudOpacity s;
     optionColorScheme := x;
     optionSmoothData := optionSmoothData s;
     optionSnowColors := optionSnowColors s;
     optionExtension := optionExtension s |}.

(** ** Leaflet and the browser *)

(** [L.tileLayer(url, options)]: a new object, so a new handle. *)
Definition tileLayer (u : string) (op : Q) (attr : option string) (s : State)
  : nat * State :=
  (length (heap s),
   set_heap (heap s ++ [{| url := u; opacity := op; attribution := attr |}]) s).

Definition map_hasLayer (h : nat) (s : State) : bool :=
  bool_decide (h ∈ mapLayers s).

(** [map.addLayer]: does nothing for a layer the map already has. *)
Definition map_addLayer (h : nat) (s : State) : State :=
  set_mapLayers ({[h]} ∪ mapLayers s) s.

Definition map_removeLayer (h : nat) (s : State) : State :=
  set_mapLayers (mapLayers s ∖ {[h]}) s.

(** [layer.setOpacity(v)] on the object behind handle [h]. *)
Definition layer_setOpacity (h : nat) (v : Q) (hp : list Layer) : list Layer :=
  alter (Layer_setOpacity v) h hp.

(** [arr.forEach(layer => { if (layer) layer.setOpacity(v); })].  The layers
    of an array are set to one and the same value, so the order of the visit
    does not show in the result. *)
Definition forEach_setOpacity (arr : gmap jsnum nat) (v : Q) (hp : list Layer)
  : list Layer :=
  foldr (fun kh acc => if is_array_index kh.1 then layer_setOpacity kh.2 v acc else acc)
        hp (map_to_list arr).

(** The same visit over any list of (key, layer) entries. *)
Definition visit_all (v : Q) (l : list (jsnum * nat)) (hp : list Layer) : list Layer :=
  foldr (fun kh acc => if is_array_index kh.1 then layer_setOpacity kh.2 v acc else acc)
        hp l.

(** ** Static tables *)

Definition radarColorSchemes : gmap string nat :=
  list_to_map
    [("universal_blue", 2%nat); ("original", 1%nat); ("titan", 3%nat);
     ("weatherchannel", 4%nat); ("meteored", 5%nat); ("nexrad", 6%nat);
     ("rainbow", 7%nat); ("darksky", 8%nat); ("raw", 0%nat)].

Definition mapStyles : gmap string (string * string) :=
  list_to_map
    [("geographic",
      ("https://{s}.tile.openstreetmap.org/{z}/{x}/{y}.png",
       "&copy; OpenStreetMap contributors"));
     ("streetmap",
      ("https://{s}.tile.openstreetmap.org/{z}/{x}/{y}.png",
       "&copy; OpenStreetMap contributors"));
     ("satellite",
      ("https://{s}.arcgisonline.com/ArcGIS/rest/services/World_Imagery/MapServer/tile/{z}/{y}/{x}",
       "Tiles &copy; Esri"));
     ("cyclosm",
      ("https://{s}.tile-cyclosm.openstreetmap.fr/cyclosm/{z}/{x}/{y}.png",
       "&copy; Cyclosm & OpenStreetMap contributors"));
     ("tracestrack",
      ("https://tile.tracestrack.org/{z}/{x}/{y}.png",
       "&copy; TracesTrack"))].

(** ** The script's functions *)

Definition buildRadarTileUrl (s : State) (frame : Frame) : string :=
  interp (apiHost s) +:+ path frame +:+ "/" +:+ pretty 256%nat
  +:+ "/{z}/{x}/{y}/" +:+ pretty (optionColorScheme s)
  +:+ "/" +:+ pretty (optionSmoothData s) +:+ "_" +:+ pretty (optionSnowColors s)
  +:+ "." +:+ optionExtension s.

Definition buildSatelliteTileUrl (s : State) (frame : Frame) : string :=
  interp (apiHost s) +:+ path frame +:+ "/" +:+ pretty 256%nat
  +:+ "/{z}/{x}/{y}/0/0_0." +:+ optionExtension s.

(** The radar half of [addOverlays] (lines 86-92). *)
Definition addRadarOverlay (frameIndex : jsnum) (frame : Frame) (s : State) : State :=
  let s1 :=
    match radarOverlayLayers s !! frameIndex with
    | Some _ => s
    | None =>
        let '(layer, s') := tileLayer (buildRadarTileUrl s frame) (rainOpacity s) None s in
        set_radarOverlayLayers (<[frameIndex := layer]> (radarOverlayLayers s')) s'
    end in
  match radarOverlayLayers s1 !! frameIndex with
  | Some layer => map_addLayer layer s1
  | None => s1
  end.

(** The satellite half of [addOverlays] (lines 95-101). *)
Definition addCloudOverlay (frameIndex : jsnum) (frame : Frame) (s : State) : State :=
  let s1 :=
    match cloudOverlayLayers s !! frameIndex with
    | Some _ => s
    | None =>
        let '(layer, s') := tileLayer (buildSatelliteTileUrl s frame) (cloudOpacity s) None s in
        set_cloudOverlayLayers (<[frameIndex := layer]> (cloudOverlayLayers s')) s'
    end in
  match cloudOverlayLayers s1 !! frameIndex with
  | Some layer => map_addLayer layer s1
  | None => s1
  end.

Definition addOverlays (frameIndex : jsnum) (s : State) : State :=
  match arr_get (radarFrames s) frameIndex with
  | None => s
  | Some rf =>
      match arr_get (satelliteFrames s) frameIndex with
      | None => s
      | Some sf => addCloudOverlay frameIndex sf (addRadarOverlay frameIndex rf s)
      end
  end.

Definition removeOverlays (frameIndex : jsnum) (s : State) : State :=
  let s1 :=
    match radarOverlayLayers s !! frameIndex with
    | Some layer => if map_hasLayer layer s then map_removeLayer layer s else s
    | None => s
    end in
  match cloudOverlayLayers s1 !! frameIndex with
  | Some layer => if map_hasLayer layer s1 then map_removeLayer layer s1 else s1
  | None => s1
  end.

Definition showFrame (index : jsnum) (s : State) : State :=
  addOverlays index (set_currentFrame index (removeOverlays (currentFrame s) s)).

Definition frameMax (s : State) : jsnum :=
  js_min (arr_length (radarFrames s)) (arr_length (satelliteFrames s)).

Definition nextFrame (s : State) : State :=
  let max := frameMax s in
  showFrame (js_rem (js_add (currentFrame s) (Num 1)) max) s.

Definition prevFrame (s : State) : State :=
  let max := frameMax s in
  showFrame (js_rem (js_add (js_sub (currentFrame s) (Num 1)) max) max) s.

(** Timer ids are positive, hence truthy; [undefined], [null] and [0] are
    falsy. *)
Definition playToggle (s : State) : State :=
  match playInterval s with
  | Val (S _ as id) =>
      set_playInterval Null (set_intervals (intervals s ∖ {[id]}) s)
  | _ =>
      let id := S (lastTimer s) in
      set_playInterval (Val id)
        (set_lastTimer id (set_intervals ({[id]} ∪ intervals s) s))
  end.

(** The body of [fetchRainViewerData] after the two [await]s, for the parsed
    document [data]. *)
Definition fetchRainViewerData (data : WeatherMaps) (s : State) : State :=
  let s1 := set_apiHost (host data) s in
  let s2 :=
    set_radarFrames
      (or_else (opt_chain (radar data) past) []
       ++ or_else (opt_chain (radar data) nowcast) []) s1 in
  let s3 :=
    set_satelliteFrames (or_else (opt_chain (satellite data) infrared) []) s2 in
  addOverlays (currentFrame s3) s3.

(** ** Event handlers *)

Definition opacityRain_oninput (v : Q) (s : State) : State :=
  let s1 := set_rainOpacity v s in
  set_heap (forEach_setOpacity (radarOverlayLayers s1) (rainOpacity s1) (heap s1)) s1.

Definition opacityCloud_oninput (v : Q) (s : State) : State :=
  let s1 := set_cloudOpacity v s in
  set_heap (forEach_setOpacity (cloudOverlayLayers s1) (cloudOpacity s1) (heap s1)) s1.

Definition radarStyle_onchange (sel : string) (s : State) : State :=
  match radarColorSchemes !! sel with
  | Some id =>
      let s1 := set_optionColorScheme id s in
      let s2 := removeOverlays (currentFrame s1) s1 in
      let s3 := set_radarOverlayLayers ∅ s2 in
      addOverlays (currentFrame s3) s3
  | None => s
  end.

Definition mapStyle_onchange (sel : string) (s : State) : State :=
  match mapStyles !! sel with
  | Some (u, attr) =>
      let s1 := map_removeLayer (baseLayer s) s in
      let '(layer, s2) := tileLayer u 1%Q (Some attr) s1 in
      let s3 := set_baseLayer layer (map_addLayer layer s2) in
      addOverlays (currentFrame s3) s3
  | None => s
  end.

(** The state once the [DOMContentLoaded] handler has run: the map holds the
    default base layer, the metadata request is under way. *)
Definition initial : State :=
  {| heap := [{| url := "https://{s}.tile.openstreetmap.org/{z}/{x}/{y}.png";
                 opacity := 1%Q;
                 attribution := Some "&copy; OpenStreetMap contributors" |}];
     mapLayers := {[0%nat]};
     intervals := ∅;
     lastTimer := 0;
     baseLayer := 0;
     radarOverlayLayers := ∅;
     cloudOverlayLayers := ∅;
     currentFrame := Num 0;
     playInterval := Undefined;
     radarFrames := [];
     satelliteFrames := [];
     apiHost := Val "";
     rainOpacity := 1%Q;
     cloudOpacity := 1%Q;
     optionColorScheme := 2;
     optionSmoothData := 1;
     optionSnowColors := 1;
     optionExtension := "webp" |}.

(** What can happen after the page is set up, the arrival of the metadata
    apart: clicks, slider and select changes, and ticks of interval timers. *)
Inductive Event :=
  | Play
  | Prev
  | Next
  | Tick (id : nat)
  | OpacityRain (v : Q)
  | OpacityCloud (v : Q)
  | RadarStyle (sel : string)
  | MapStyle (sel : string).

Definition handle (e : Event) (s : State) : State :=
  match e with
  | Play => playToggle s
  | Prev => prevFrame s
  | Next => nextFrame s
  | Tick id => if bool_decide (id ∈ intervals s) then nextFrame s else s
  | OpacityRain v => opacityRain_oninput v s
  | OpacityCloud v => opacityCloud_oninput v s
  | RadarStyle sel => radarStyle_onchange sel s
  | MapStyle sel => mapStyle_onchange sel s
  end.

Definition run (evs : list Event) (s : State) : State :=
  foldl (fun s e => handle e s) s evs.

(** The metadata is requested once; it arrives between two events, or never. *)
Inductive reachable : State -> Prop :=
  | reach_before (pre : list Event) :
      reachable (run pre initial)
  | reach_after (pre : list Event) (data : WeatherMaps) (post : list Event) :
      reachable (run post (fetchRainViewerData data (run pre initial))).

(** A small catalog used in the examples: two radar frames (one past, one
    nowcast), three satellite frames. *)
Definition sample_radar1 : Frame := {| path := "/v2/radar/100"; time := 100 |}.
Definition sample_radar2 : Frame := {| path := "/v2/radar/200"; time := 200 |}.
Definition sample_sat : Frame := {| path := "/v2/satellite/100"; time := 100 |}.
Definition sample_data : WeatherMaps :=
  {| host := Val "https://tilecache.rainviewer.com";
     radar := Val {| past := Val [sample_radar1]; nowcast := Val [sample_radar2] |};
     satellite := Val {| infrared := Val [sample_sat; sample_sat; sample_sat] |} |}.
Definition sample_loaded : State := fetchRainViewerData sample_data initial.

(** One radar frame and one satellite frame. *)
Definition single_data : WeatherMaps :=
  {| host := Val "https://tilecache.rainviewer.com";
     radar := Val {| past := Val [sample_radar1]; nowcast := Null |};
     satellite := Val {| infrared := Val [sample_sat] |} |}.
Definition single_loaded : State := fetchRainViewerData single_data initial.

(** Radar frames but no satellite section at all. *)
Definition radar_only_data : WeatherMaps :=
  {| host := Val "https://tilecache.rainviewer.com";
     radar := Val {| past := Val [sample_radar1]; nowcast := Undefined |};
     satellite := Undefined |}.

(** The state [s] with other radar rendering options. *)
Definition with_options (scheme smooth snow : nat) (s : State) : State :=
  {| heap := heap s;
     mapLayers := mapLayers s;
     intervals := intervals s;
     lastTimer := lastTimer s;
     baseLayer := baseLayer s;
     radarOverlayLayers := radarOverlayLayers s;
     cloudOverlayLayers := cloudOverlayLayers s;
     currentFrame := currentFrame s;
     playInterval := playInterval s;
     radarFrames := radarFrames s;
     satelliteFrames := satelliteFrames s;
     apiHost := apiHost s;
     rainOpacity := rainOpacity s;
     cloudOpacity := cloudOpacity s;
     optionColorScheme := scheme;
     optionSmoothData := smooth;
     optionSnowColors := snow;
     optionExtension := optionExtension s |}.

(** ** Notions used in the statements *)

(** [missing || []]: what a missing or [null] frame list stands for. *)
Definition frames_or_empty (x : maybe (list Frame)) : list Frame :=
  match x with
  | Val l => l
  | _ => []
  end.

(** The bound of the shared frame index as an integer. *)
Definition maxZ (s : State) : Z :=
  Z.min (Z.of_nat (length (radarFrames s))) (Z.of_nat (length (satelliteFrames s))).

(** [currentFrame] is an integer in [[0, max)]. *)
Definition index_in_range (s : State) : Prop :=
  exists i, currentFrame s = Num i /\ 0 <= i < maxZ s.

(** The two stepping buttons. *)
Inductive Nav :=
  | NavNext
  | NavPrev.

Definition nav_event (n : Nav) : Event :=
  match n with
  | NavNext => Next
  | NavPrev => Prev
  end.

(** The layer object [addOverlays] builds for a radar frame, and the one for a
    satellite frame, under the options of [s]. *)
Definition radar_layer (s : State) (f : Frame) : Layer :=
  {| url := buildRadarTileUrl s f; opacity := rainOpacity s; attribution := None |}.

Definition cloud_layer (s : State) (f : Frame) : Layer :=
  {| url := buildSatelliteTileUrl s f; opacity := cloudOpacity s; attribution := None |}.

(** What holds of the caches and the map in every state the page can be in:
    a cached layer sits at an index both frame lists have and is the layer the
    current options yield for that frame; no object is cached twice or is the
    base layer; and the map shows nothing but the base layer and the two
    cached layers of the current frame. *)
Record Inv (s : State) : Prop := {
  inv_radar : forall k h, radarOverlayLayers s !! k = Some h ->
    exists f, arr_get (radarFrames s) k = Some f
              /\ is_Some (arr_get (satelliteFrames s) k)
              /\ heap s !! h = Some (radar_layer s f);
  inv_cloud : forall k h, cloudOverlayLayers s !! k = Some h ->
    exists f, arr_get (satelliteFrames s) k = Some f
              /\ is_Some (arr_get (radarFrames s) k)
              /\ heap s !! h = Some (cloud_layer s f);
  inv_radar_inj : forall k1 k2 h,
    radarOverlayLayers s !! k1 = Some h -> radarOverlayLayers s !! k2 = Some h -> k1 = k2;
  inv_cloud_inj : forall k1 k2 h,
    cloudOverlayLayers s !! k1 = Some h -> cloudOverlayLayers s !! k2 = Some h -> k1 = k2;
  inv_disjoint : forall k1 k2 h,
    radarOverlayLayers s !! k1 = Some h -> cloudOverlayLayers s !! k2 = Some h -> False;
  inv_base : (baseLayer s < length (heap s))%nat;
  inv_base_radar : forall k, radarOverlayLayers s !! k <> Some (baseLayer s);
  inv_base_cloud : forall k, cloudOverlayLayers s !! k <> Some (baseLayer s);
  inv_map : forall h, h ∈ mapLayers s ->
    h = baseLayer s
    \/ radarOverlayLayers s !! currentFrame s = Some h
    \/ cloudOverlayLayers s !! currentFrame s = Some h
}.

(** The layers an array holds under key [k]: one or none. *)
Definition cached_at (arr : gmap jsnum nat) (k : jsnum) : gset nat :=
  match arr !! k with
  | Some h => {[h]}
  | None => ∅
  end.

(** The host and the rendering options of two states agree. *)
Definition same_options (s s' : State) : Prop :=
  apiHost s' = apiHost s
  /\ rainOpacity s' = rainOpacity s
  /\ cloudOpacity s' = cloudOpacity s
  /\ optionColorScheme s' = optionColorScheme s
  /\ optionSmoothData s' = optionSmoothData s
  /\ optionSnowColors s' = optionSnowColors s
  /\ optionExtension s' = optionExtension s.

(** The radar tile URL written out for given parts. *)
Definition radar_url (host : maybe string) (p : string) (scheme smooth snow : nat)
    (ext : string) : string :=
  interp host +:+ p +:+ "/256/{z}/{x}/{y}/" +:+ pretty scheme
  +:+ "/" +:+ pretty smooth +:+ "_" +:+ pretty snow +:+ "." +:+ ext.

Definition is_RadarStyle (e : Event) : bool :=
  match e with
  | RadarStyle _ => true
  | _ => false
  end.

(** What is on the map: the base layer always, and the two layers of the
    current frame whenever both lists have that frame. *)
Record Shown (s : State) : Prop := {
  shown_base : baseLayer s ∈ mapLayers s;
  shown_frame :
    match arr_get (radarFrames s) (currentFrame s),
          arr_get (satelliteFrames s) (currentFrame s) with
    | Some _, Some _ =>
        exists r c,
          radarOverlayLayers s !! currentFrame s = Some r
          /\ cloudOverlayLayers s !! currentFrame s = Some c
          /\ r ∈ mapLayers s
          /\ c ∈ mapLayers s
    | _, _ => True
    end
}.

(** The browser's interval timers against [playInterval]: the timer whose id
    [playInterval] holds is the only one running; none runs when it holds
    [undefined] or [null]. *)
Definition timer_ok (s : State) : Prop :=
  match playInterval s with
  | Val (S n) => intervals s = {[S n]} /\ (S n <= lastTimer s)%nat
  | Val O => False
  | _ => intervals s = ∅
  end.

(** [playInterval] is falsy: no animation is running. *)
Definition paused (s : State) : Prop :=
  match playInterval s with
  | Val (S _) => False
  | _ => True
  end.

(** Every layer object of [s] is still there in [s'], with the URL and the
    attribution it was made with. *)
Definition heap_keeps (s s' : State) : Prop :=
  forall h l, heap s !! h = Some l ->
    exists l', heap s' !! h = Some l' /\ url l' = url l /\ attribution l' = attribution l.

(** * Properties *)

(** ** Tile URLs *)

(** C7: for every frame and every state of the options the satellite tile URL
    is [{host}{frame.path}/256/{z}/{x}/{y}/0/0_0.{format}]: it is the radar URL
    for scheme 0 with both flags 0, it does not change with the scheme and the
    flags, and only the format comes from the options. *)
Theorem buildSatelliteTileUrl_template (s : State) (frame : Frame) :
  buildSatelliteTileUrl s frame
  = interp (apiHost s) +:+ path frame +:+ "/256/{z}/{x}/{y}/0/0_0." +:+ optionExtension s
  /\ buildSatelliteTileUrl s frame = buildRadarTileUrl (with_options 0 0 0 s) frame
  /\ forall scheme smooth snow,
       buildSatelliteTileUrl (with_options scheme smooth snow s) frame
       = buildSatelliteTileUrl s frame.
Proof.
  repeat split.
Qed.

Example buildSatelliteTileUrl_sample :
  buildSatelliteTileUrl sample_loaded sample_sat
  = "https://tilecache.rainviewer.com/v2/satellite/100/256/{z}/{x}/{y}/0/0_0.webp".
Proof. reflexivity. Qed.

(** ** What the functions leave alone *)

Lemma addRadarOverlay_frames k f s :
  radarFrames (addRadarOverlay k f s) = radarFrames s
  /\ satelliteFrames (addRadarOverlay k f s) = satelliteFrames s
  /\ currentFrame (addRadarOverlay k f s) = currentFrame s.
Proof.
  unfold addRadarOverlay, tileLayer.
  destruct (radarOverlayLayers s !! k) eqn:E; simpl.
  - by rewrite E.
  - by rewrite lookup_insert_eq.
Qed.

Lemma addCloudOverlay_frames k f s :
  radarFrames (addCloudOverlay k f s) = radarFrames s
  /\ satelliteFrames (addCloudOverlay k f s) = satelliteFrames s
  /\ currentFrame (addCloudOverlay k f s) = currentFrame s.
Proof.
  unfold addCloudOverlay, tileLayer.
  destruct (cloudOverlayLayers s !! k) eqn:E; simpl.
  - by rewrite E.
  - by rewrite lookup_insert_eq.
Qed.

Lemma addOverlays_frames k s :
  radarFrames (addOverlays k s) = radarFrames s
  /\ satelliteFrames (addOverlays k s) = satelliteFrames s
  /\ currentFrame (addOverlays k s) = currentFrame s.
Proof.
  unfold addOverlays.
  destruct (arr_get (radarFrames s) k) as [rf|]; [|done].
  destruct (arr_get (satelliteFrames s) k) as [sf|]; [|done].
  destruct (addCloudOverlay_frames k sf (addRadarOverlay k rf s)) as (-> & -> & ->).
  apply addRadarOverlay_frames.
Qed.

Lemma removeOverlays_frames k s :
  radarFrames (removeOverlays k s) = radarFrames s
  /\ satelliteFrames (removeOverlays k s) = satelliteFrames s.
Proof.
  unfold removeOverlays, map_removeLayer.
  repeat case_match; done.
Qed.

Lemma showFrame_frames k s :
  radarFrames (showFrame k s) = radarFrames s
  /\ satelliteFrames (showFrame k s) = satelliteFrames s
  /\ currentFrame (showFrame k s) = k.
Proof.
  unfold showFrame.
  destruct (addOverlays_frames k (set_currentFrame k (removeOverlays (currentFrame s) s)))
    as (-> & -> & ->).
  destruct (removeOverlays_frames (currentFrame s) s) as [H1 H2].
  done.
Qed.

Lemma frameMax_maxZ s : frameMax s = Num (maxZ s).
Proof. reflexivity. Qed.

Lemma showFrame_maxZ k s : maxZ (showFrame k s) = maxZ s.
Proof.
  unfold maxZ. destruct (showFrame_frames k s) as (-> & -> & _). done.
Qed.

(** ** Stepping *)

Lemma nextFrame_index s i :
  currentFrame s = Num i -> 0 <= i < maxZ s ->
  currentFrame (nextFrame s) = Num ((i + 1) mod maxZ s).
Proof.
  intros Hc Hi. unfold nextFrame.
  destruct (showFrame_frames (js_rem (js_add (currentFrame s) (Num 1)) (frameMax s)) s)
    as (_ & _ & ->).
  rewrite Hc, frameMax_maxZ. simpl.
  destruct (decide (maxZ s = 0)); [lia|].
  by rewrite Z.rem_mod_nonneg by lia.
Qed.

Lemma prevFrame_index s i :
  currentFrame s = Num i -> 0 <= i < maxZ s ->
  currentFrame (prevFrame s) = Num ((i - 1 + maxZ s) mod maxZ s).
Proof.
  intros Hc Hi. unfold prevFrame.
  destruct (showFrame_frames
              (js_rem (js_add (js_sub (currentFrame s) (Num 1)) (frameMax s)) (frameMax s)) s)
    as (_ & _ & ->).
  rewrite Hc, frameMax_maxZ. simpl.
  destruct (decide (maxZ s = 0)); [lia|].
  by rewrite Z.rem_mod_nonneg by lia.
Qed.

Lemma nextFrame_maxZ s : maxZ (nextFrame s) = maxZ s.
Proof. apply showFrame_maxZ. Qed.

Lemma prevFrame_maxZ s : maxZ (prevFrame s) = maxZ s.
Proof. apply showFrame_maxZ. Qed.

(** With an empty catalog the modulus is zero and the index becomes [NaN]. *)
Lemma nextFrame_empty s : maxZ s = 0 -> currentFrame (nextFrame s) = NaN.
Proof.
  intros H. unfold nextFrame.
  destruct (showFrame_frames (js_rem (js_add (currentFrame s) (Num 1)) (frameMax s)) s)
    as (_ & _ & ->).
  rewrite frameMax_maxZ, H. by destruct (currentFrame s).
Qed.

Lemma prevFrame_empty s : maxZ s = 0 -> currentFrame (prevFrame s) = NaN.
Proof.
  intros H. unfold prevFrame.
  destruct (showFrame_frames
              (js_rem (js_add (js_sub (currentFrame s) (Num 1)) (frameMax s)) (frameMax s)) s)
    as (_ & _ & ->).
  rewrite frameMax_maxZ, H. by destruct (currentFrame s).
Qed.

Lemma nav_in_range (n : Nav) s :
  index_in_range s ->
  index_in_range (handle (nav_event n) s) /\ maxZ (handle (nav_event n) s) = maxZ s.
Proof.
  intros (i & Hc & Hi). destruct n; simpl.
  - split; [|apply nextFrame_maxZ].
    exists ((i + 1) mod maxZ s). rewrite nextFrame_maxZ.
    split; [by apply nextFrame_index|]. apply Z.mod_pos_bound. lia.
  - split; [|apply prevFrame_maxZ].
    exists ((i - 1 + maxZ s) mod maxZ s). rewrite prevFrame_maxZ.
    split; [by apply prevFrame_index|]. apply Z.mod_pos_bound. lia.
Qed.

(** C1 (as amended): from a state whose [currentFrame] is an integer in
    [[0, max)], where [max = min(len(radarFrames), len(satelliteFrames))] (so
    the catalog is not empty), every sequence of next() and prev() calls keeps
    [currentFrame] in [[0, max)], and [max] itself does not change. *)
Theorem nav_keeps_index_in_range (navs : list Nav) (s : State) :
  index_in_range s ->
  index_in_range (run (map nav_event navs) s)
  /\ maxZ (run (map nav_event navs) s) = maxZ s.
Proof.
  revert s. induction navs as [|n navs IH]; intros s Hs; [done|].
  simpl. destruct (nav_in_range n s Hs) as [H1 H2].
  destruct (IH _ H1) as [H3 H4]. split; [done|]. by rewrite H4.
Qed.

Lemma nav_keeps_index_in_range_witness :
  index_in_range (run (map nav_event [NavPrev; NavPrev; NavNext; NavPrev]) sample_loaded)
  /\ maxZ (run (map nav_event [NavPrev; NavPrev; NavNext; NavPrev]) sample_loaded)
     = maxZ sample_loaded.
Proof.
  apply (nav_keeps_index_in_range [NavPrev; NavPrev; NavNext; NavPrev] sample_loaded).
  exists 0. split; [reflexivity|]. vm_compute. split; discriminate || reflexivity.
Defined.

(** C1 (as stated) fails on the page as it starts: the catalog is empty, so
    [[0, max)] is empty and holds no index at all, before and after a step;
    and a step taken there turns [currentFrame] into [NaN]. *)
Lemma empty_catalog_index_not_in_range :
  reachable initial
  /\ reachable (run (map nav_event [NavNext]) initial)
  /\ maxZ initial = 0
  /\ ~ index_in_range initial
  /\ currentFrame (run (map nav_event [NavNext]) initial) = NaN
  /\ ~ index_in_range (run (map nav_event [NavNext]) initial).
Proof.
  split; [apply (reach_before [])|].
  split; [apply (reach_before [Next])|].
  split; [reflexivity|].
  split; [intros (i & _ & Hi); vm_compute in Hi; destruct Hi as [H1 H2]; destruct i; done|].
  split; [reflexivity|].
  intros (i & Hi & _). discriminate Hi.
Qed.




Example prev_wraps_around :
  currentFrame (prevFrame sample_loaded) = Num 1
  /\ currentFrame (nextFrame (prevFrame sample_loaded)) = Num 0.
Proof. split; reflexivity. Qed.

(** ** Loading the catalog *)

(** C9: a metadata document that lacks [radar.past], [radar.nowcast] or
    [satellite.infrared] (the field or the whole section missing or [null])
    loads all the same: the radar list is past followed by nowcast, each empty
    when missing, and the satellite list is empty when missing. *)
Theorem fetchRainViewerData_missing_fields (data : WeatherMaps) (s : State) :
  radarFrames (fetchRainViewerData data s)
  = match radar data with
    | Val r => frames_or_empty (past r) ++ frames_or_empty (nowcast r)
    | _ => []
    end
  /\ satelliteFrames (fetchRainViewerData data s)
     = match satellite data with
       | Val r => frames_or_empty (infrared r)
       | _ => []
       end.
Proof.
  unfold fetchRainViewerData.
  match goal with |- context [addOverlays ?k ?t] =>
    destruct (addOverlays_frames k t) as (-> & -> & _) end.
  simpl. split.
  - destruct (radar data) as [| |r]; [done..|].
    simpl. by destruct (past r), (nowcast r).
  - destruct (satellite data) as [| |r]; [done..|].
    simpl. by destruct (infrared r).
Qed.

Example fetch_radar_only :
  radarFrames (fetchRainViewerData radar_only_data initial) = [sample_radar1]
  /\ satelliteFrames (fetchRainViewerData radar_only_data initial) = [].
Proof. split; reflexivity. Qed.

Example fetch_nothing :
  let s := fetchRainViewerData
             {| host := Undefined; radar := Undefined; satellite := Null |} initial in
  radarFrames s = [] /\ satelliteFrames s = [] /\ apiHost s = Undefined.
Proof. repeat split. Qed.

(** ** Attaching the overlays of a frame *)

Lemma addRadarOverlay_cached k f s h :
  radarOverlayLayers s !! k = Some h ->
  addRadarOverlay k f s = map_addLayer h s.
Proof. intros E. unfold addRadarOverlay. by rewrite E, E. Qed.

Lemma addRadarOverlay_fresh k f s :
  radarOverlayLayers s !! k = None ->
  addRadarOverlay k f s
  = map_addLayer (length (heap s))
      (set_radarOverlayLayers (<[k := length (heap s)]> (radarOverlayLayers s))
         (set_heap (heap s ++ [radar_layer s f]) s)).
Proof.
  intros E. unfold addRadarOverlay, tileLayer. rewrite E. simpl.
  by rewrite lookup_insert_eq.
Qed.

Lemma addCloudOverlay_cached k f s h :
  cloudOverlayLayers s !! k = Some h ->
  addCloudOverlay k f s = map_addLayer h s.
Proof. intros E. unfold addCloudOverlay. by rewrite E, E. Qed.

Lemma addCloudOverlay_fresh k f s :
  cloudOverlayLayers s !! k = None ->
  addCloudOverlay k f s
  = map_addLayer (length (heap s))
      (set_cloudOverlayLayers (<[k := length (heap s)]> (cloudOverlayLayers s))
         (set_heap (heap s ++ [cloud_layer s f]) s)).
Proof.
  intros E. unfold addCloudOverlay, tileLayer. rewrite E. simpl.
  by rewrite lookup_insert_eq.
Qed.

Lemma addOverlays_cases (frameIndex : jsnum) (s : State) :
  match arr_get (radarFrames s) frameIndex, arr_get (satelliteFrames s) frameIndex with
  | Some _, Some _ =>
      exists r c,
        radarOverlayLayers (addOverlays frameIndex s) !! frameIndex = Some r
        /\ cloudOverlayLayers (addOverlays frameIndex s) !! frameIndex = Some c
        /\ r ∈ mapLayers (addOverlays frameIndex s)
        /\ c ∈ mapLayers (addOverlays frameIndex s)
  | _, _ => addOverlays frameIndex s = s
  end.
Proof.
  unfold addOverlays.
  destruct (arr_get (radarFrames s) frameIndex) as [rf|]; [|done].
  destruct (arr_get (satelliteFrames s) frameIndex) as [sf|]; [|done].
  assert (exists r, radarOverlayLayers (addRadarOverlay frameIndex rf s) !! frameIndex = Some r
                    /\ r ∈ mapLayers (addRadarOverlay frameIndex rf s)) as (r & Hr & Hrm).
  { destruct (radarOverlayLayers s !! frameIndex) as [r|] eqn:E.
    - exists r. rewrite (addRadarOverlay_cached _ _ _ _ E). simpl. split; [done|set_solver].
    - exists (length (heap s)). rewrite (addRadarOverlay_fresh _ _ _ E). simpl.
      split; [apply lookup_insert_eq|set_solver]. }
  set (s1 := addRadarOverlay frameIndex rf s) in *.
  exists r.
  destruct (cloudOverlayLayers s1 !! frameIndex) as [c|] eqn:E.
  - exists c. rewrite (addCloudOverlay_cached _ _ _ _ E). simpl.
    repeat split; [done|done|set_solver|set_solver].
  - exists (length (heap s1)). rewrite (addCloudOverlay_fresh _ _ _ E). simpl.
    repeat split; [done|apply lookup_insert_eq|set_solver|set_solver].
Qed.


(** C10: attaching is all or nothing across the two layer classes: when the
    radar or the satellite frame at the index is missing, [addOverlays]
    returns the state as it got it (no layer made, none attached); otherwise
    the radar and the satellite layer of that index are both cached and both
    on the map afterwards. *)
Theorem addOverlays_all_or_nothing (frameIndex : jsnum) (s : State) :
  match arr_get (radarFrames s) frameIndex, arr_get (satelliteFrames s) frameIndex with
  | Some _, Some _ =>
      exists r c,
        radarOverlayLayers (addOverlays frameIndex s) !! frameIndex = Some r
        /\ cloudOverlayLayers (addOverlays frameIndex s) !! frameIndex = Some c
        /\ r ∈ mapLayers (addOverlays frameIndex s)
        /\ c ∈ mapLayers (addOverlays frameIndex s)
  | _, _ => addOverlays frameIndex s = s
  end.
Proof. exact (addOverlays_cases frameIndex s). Qed.

Example addOverlays_missing_satellite :
  addOverlays (Num 0) (fetchRainViewerData radar_only_data initial)
  = fetchRainViewerData radar_only_data initial.
Proof. vm_compute. reflexivity. Qed.

Example addOverlays_beyond_radar :
  addOverlays (Num 2) sample_loaded = sample_loaded.
Proof. vm_compute. reflexivity. Qed.

(** ** The invariant *)

Lemma Inv_radar_lt s k h :
  Inv s -> radarOverlayLayers s !! k = Some h -> (h < length (heap s))%nat.
Proof.
  intros I Hk. destruct (inv_radar s I k h Hk) as (f & _ & _ & Hh).
  by apply lookup_lt_Some in Hh.
Qed.

Lemma Inv_cloud_lt s k h :
  Inv s -> cloudOverlayLayers s !! k = Some h -> (h < length (heap s))%nat.
Proof.
  intros I Hk. destruct (inv_cloud s I k h Hk) as (f & _ & _ & Hh).
  by apply lookup_lt_Some in Hh.
Qed.

Lemma Inv_addRadarOverlay s f :
  Inv s ->
  arr_get (radarFrames s) (currentFrame s) = Some f ->
  is_Some (arr_get (satelliteFrames s) (currentFrame s)) ->
  Inv (addRadarOverlay (currentFrame s) f s).
Proof.
  intros I Hf Hs.
  destruct (radarOverlayLayers s !! currentFrame s) as [h0|] eqn:E.
  - rewrite (addRadarOverlay_cached _ _ _ _ E).
    constructor; simpl; try apply I.
    intros h [->%elem_of_singleton|Hh]%elem_of_union; [by auto|].
    by apply (inv_map s I).
  - rewrite (addRadarOverlay_fresh _ _ _ E).
    pose proof (Inv_radar_lt s) as Hrl. pose proof (Inv_cloud_lt s) as Hcl.
    constructor; simpl.
    + intros k h [[<- <-]|[Hne Hk]]%lookup_insert_Some.
      * exists f. repeat split; [done..|]. by apply list_lookup_middle.
      * destruct (inv_radar s I k h Hk) as (f0 & ? & ? & Hh).
        exists f0. repeat split; [done..|]. by apply lookup_app_l_Some.
    + intros k h Hk. destruct (inv_cloud s I k h Hk) as (f0 & ? & ? & Hh).
      exists f0. repeat split; [done..|]. by apply lookup_app_l_Some.
    + intros k1 k2 h [[<- <-]|[Hne1 Hk1]]%lookup_insert_Some
                     [[<- Hh]|[Hne2 Hk2]]%lookup_insert_Some; try done.
      * specialize (Hrl _ _ I Hk2). lia.
      * specialize (Hrl _ _ I Hk1). lia.
      * by apply (inv_radar_inj s I k1 k2 h).
    + apply I.
    + intros k1 k2 h [[<- <-]|[Hne1 Hk1]]%lookup_insert_Some Hk2.
      * specialize (Hcl _ _ I Hk2). lia.
      * by apply (inv_disjoint s I k1 k2 h).
    + rewrite length_app. pose proof (inv_base s I). simpl. lia.
    + intros k [[<- Hh]|[Hne1 Hk1]]%lookup_insert_Some.
      * pose proof (inv_base s I). lia.
      * by apply (inv_base_radar s I k).
    + apply I.
    + intros h [->%elem_of_singleton|Hh]%elem_of_union.
      * right. left. apply lookup_insert_eq.
      * destruct (inv_map s I h Hh) as [?|[?|?]]; [by left|congruence|by right; right].
Qed.

Lemma Inv_addCloudOverlay s f :
  Inv s ->
  arr_get (satelliteFrames s) (currentFrame s) = Some f ->
  is_Some (arr_get (radarFrames s) (currentFrame s)) ->
  Inv (addCloudOverlay (currentFrame s) f s).
Proof.
  intros I Hf Hs.
  destruct (cloudOverlayLayers s !! currentFrame s) as [h0|] eqn:E.
  - rewrite (addCloudOverlay_cached _ _ _ _ E).
    constructor; simpl; try apply I.
    intros h [->%elem_of_singleton|Hh]%elem_of_union; [by auto|].
    by apply (inv_map s I).
  - rewrite (addCloudOverlay_fresh _ _ _ E).
    pose proof (Inv_radar_lt s) as Hrl. pose proof (Inv_cloud_lt s) as Hcl.
    constructor; simpl.
    + intros k h Hk. destruct (inv_radar s I k h Hk) as (f0 & ? & ? & Hh).
      exists f0. repeat split; [done..|]. by apply lookup_app_l_Some.
    + intros k h [[<- <-]|[Hne Hk]]%lookup_insert_Some.
      * exists f. repeat split; [done..|]. by apply list_lookup_middle.
      * destruct (inv_cloud s I k h Hk) as (f0 & ? & ? & Hh).
        exists f0. repeat split; [done..|]. by apply lookup_app_l_Some.
    + apply I.
    + intros k1 k2 h [[<- <-]|[Hne1 Hk1]]%lookup_insert_Some
                     [[<- Hh]|[Hne2 Hk2]]%lookup_insert_Some; try done.
      * specialize (Hcl _ _ I Hk2). lia.
      * specialize (Hcl _ _ I Hk1). lia.
      * by apply (inv_cloud_inj s I k1 k2 h).
    + intros k1 k2 h Hk1 [[<- <-]|[Hne2 Hk2]]%lookup_insert_Some.
      * specialize (Hrl _ _ I Hk1). lia.
      * by apply (inv_disjoint s I k1 k2 h).
    + rewrite length_app. pose proof (inv_base s I). simpl. lia.
    + apply I.
    + intros k [[<- Hh]|[Hne1 Hk1]]%lookup_insert_Some.
      * pose proof (inv_base s I). lia.
      * by apply (inv_base_cloud s I k).
    + intros h [->%elem_of_singleton|Hh]%elem_of_union.
      * right. right. apply lookup_insert_eq.
      * destruct (inv_map s I h Hh) as [?|[?|?]]; [by left|by right; left|congruence].
Qed.

Lemma Inv_addOverlays s : Inv s -> Inv (addOverlays (currentFrame s) s).
Proof.
  intros I. unfold addOverlays.
  destruct (arr_get (radarFrames s) (currentFrame s)) as [rf|] eqn:Er; [|done].
  destruct (arr_get (satelliteFrames s) (currentFrame s)) as [sf|] eqn:Es; [|done].
  pose proof (Inv_addRadarOverlay s rf I Er (mk_is_Some _ _ Es)) as I1.
  destruct (addRadarOverlay_frames (currentFrame s) rf s) as (Hr & Hs & Hc).
  rewrite <- Hc at 1.
  apply Inv_addCloudOverlay; [done|..]; rewrite ?Hr, ?Hs, Hc; eauto.
Qed.

Lemma set_mapLayers_id s : set_mapLayers (mapLayers s) s = s.
Proof. by destruct s. Qed.

Lemma remove_if_attached h s :
  (if map_hasLayer h s then map_removeLayer h s else s) = map_removeLayer h s.
Proof.
  unfold map_hasLayer, map_removeLayer. case_bool_decide as Hh; [done|].
  rewrite <- (set_mapLayers_id s) at 1. f_equal. set_solver.
Qed.

(** [removeOverlays] takes the two cached layers of the frame off the map and
    does nothing else. *)
Lemma removeOverlays_eq k s :
  removeOverlays k s
  = set_mapLayers (mapLayers s ∖ cached_at (radarOverlayLayers s) k
                               ∖ cached_at (cloudOverlayLayers s) k) s.
Proof.
  unfold removeOverlays, cached_at.
  destruct (radarOverlayLayers s !! k) as [r|] eqn:Er.
  - rewrite remove_if_attached. simpl.
    destruct (cloudOverlayLayers s !! k) as [c|] eqn:Ec.
    + by rewrite remove_if_attached.
    + unfold map_removeLayer. f_equal. set_solver.
  - destruct (cloudOverlayLayers s !! k) as [c|] eqn:Ec.
    + rewrite remove_if_attached. unfold map_removeLayer. f_equal. set_solver.
    + rewrite <- (set_mapLayers_id s) at 1. f_equal. set_solver.
Qed.

Lemma removeOverlays_only_base s h :
  (forall h, h ∈ mapLayers s ->
     h = baseLayer s
     \/ radarOverlayLayers s !! currentFrame s = Some h
     \/ cloudOverlayLayers s !! currentFrame s = Some h) ->
  h ∈ mapLayers (removeOverlays (currentFrame s) s) -> h = baseLayer s.
Proof.
  intros Hmap. rewrite removeOverlays_eq. simpl. unfold cached_at.
  intros [[Hh Hr]%elem_of_difference Hc]%elem_of_difference.
  destruct (Hmap h Hh) as [?|[E|E]]; [done|..]; rewrite E in *; set_solver.
Qed.

Lemma removeOverlays_fields k s :
  removeOverlays k s = set_mapLayers (mapLayers (removeOverlays k s)) s.
Proof. by rewrite removeOverlays_eq. Qed.

Lemma Inv_showFrame index s : Inv s -> Inv (showFrame index s).
Proof.
  intros I. unfold showFrame.
  apply (Inv_addOverlays (set_currentFrame index (removeOverlays (currentFrame s) s))).
  pose proof (fun h => removeOverlays_only_base s h (inv_map s I)) as Hb.
  rewrite removeOverlays_fields.
  constructor; simpl; try apply I.
  intros h Hh. left. by apply Hb.
Qed.

Lemma Inv_playToggle s : Inv s -> Inv (playToggle s).
Proof.
  intros I. unfold playToggle.
  destruct (playInterval s) as [| |[|n]]; constructor; simpl; apply I.
Qed.

(** *** Opacity *)

Lemma arr_get_is_array_index {A} (arr : list A) k x :
  arr_get arr k = Some x -> is_array_index k = true.
Proof.
  destruct k as [z|]; [|done]. simpl.
  case_decide; [|done]. intros _. by apply bool_decide_eq_true.
Qed.

Lemma Layer_setOpacity_idemp v l :
  Layer_setOpacity v (Layer_setOpacity v l) = Layer_setOpacity v l.
Proof. done. Qed.

Lemma visit_all_cons v k h l hp :
  visit_all v ((k, h) :: l) hp
  = if is_array_index k then layer_setOpacity h v (visit_all v l hp) else visit_all v l hp.
Proof. done. Qed.

Lemma visit_all_length v l hp : length (visit_all v l hp) = length hp.
Proof.
  induction l as [|[k h] l IH]; [done|]. rewrite visit_all_cons.
  destruct (is_array_index k); [|done].
  unfold layer_setOpacity. by rewrite length_alter.
Qed.

Lemma visit_all_lookup v l hp h :
  visit_all v l hp !! h = hp !! h
  \/ visit_all v l hp !! h = Layer_setOpacity v <$> hp !! h.
Proof.
  induction l as [|[k h'] l IH]; [by left|]. rewrite visit_all_cons.
  destruct (is_array_index k); [|done].
  unfold layer_setOpacity. destruct (decide (h' = h)) as [->|Hne].
  - right. rewrite list_lookup_alter_eq.
    destruct IH as [->| ->]; [done|].
    destruct (hp !! h); simpl; [|done]. by rewrite Layer_setOpacity_idemp.
  - by rewrite list_lookup_alter_ne.
Qed.

Lemma visit_all_hit v l hp k h :
  (k, h) ∈ l -> is_array_index k = true ->
  visit_all v l hp !! h = Layer_setOpacity v <$> hp !! h.
Proof.
  intros Hin Hk. induction l as [|[k' h'] l IH]; [by apply elem_of_nil in Hin|].
  rewrite visit_all_cons.
  apply elem_of_cons in Hin as [Heq|Hin].
  - injection Heq as <- <-. rewrite Hk. unfold layer_setOpacity.
    rewrite list_lookup_alter_eq.
    destruct (visit_all_lookup v l hp h) as [->| ->]; [done|].
    destruct (hp !! h); simpl; [|done]. by rewrite Layer_setOpacity_idemp.
  - specialize (IH Hin). destruct (is_array_index k'); [|done].
    unfold layer_setOpacity. destruct (decide (h' = h)) as [->|Hne].
    + rewrite list_lookup_alter_eq, IH.
      destruct (hp !! h); simpl; [|done]. by rewrite Layer_setOpacity_idemp.
    + by rewrite list_lookup_alter_ne.
Qed.

Lemma visit_all_miss v l hp h :
  (forall k, (k, h) ∉ l) ->
  visit_all v l hp !! h = hp !! h.
Proof.
  intros Hout. induction l as [|[k' h'] l IH]; [done|].
  rewrite visit_all_cons.
  assert (h' <> h) as Hne by (intros ->; apply (Hout k'); left).
  assert (visit_all v l hp !! h = hp !! h) as IH'.
  { apply IH. intros k Hk. apply (Hout k). by right. }
  destruct (is_array_index k'); [|done].
  unfold layer_setOpacity. by rewrite list_lookup_alter_ne.
Qed.

Lemma forEach_setOpacity_length arr v hp :
  length (forEach_setOpacity arr v hp) = length hp.
Proof. apply (visit_all_length v (map_to_list arr)). Qed.

Lemma forEach_setOpacity_cached arr v hp k h :
  arr !! k = Some h -> is_array_index k = true ->
  forEach_setOpacity arr v hp !! h = Layer_setOpacity v <$> hp !! h.
Proof.
  intros Hk Hi. apply (visit_all_hit v (map_to_list arr) hp k h); [|done].
  by apply elem_of_map_to_list.
Qed.

Lemma forEach_setOpacity_other arr v hp h :
  (forall k, arr !! k <> Some h) ->
  forEach_setOpacity arr v hp !! h = hp !! h.
Proof.
  intros Hout. apply (visit_all_miss v (map_to_list arr)).
  intros k Hk%elem_of_map_to_list. by apply (Hout k).
Qed.

Lemma Inv_opacityRain v s : Inv s -> Inv (opacityRain_oninput v s).
Proof.
  intros I. unfold opacityRain_oninput. constructor; simpl; try apply I.
  - intros k h Hk. destruct (inv_radar s I k h Hk) as (f & Hf & Hs & Hh).
    exists f. repeat split; [done..|].
    rewrite (forEach_setOpacity_cached _ _ _ k h Hk (arr_get_is_array_index _ _ _ Hf)).
    by rewrite Hh.
  - intros k h Hk. destruct (inv_cloud s I k h Hk) as (f & Hf & Hs & Hh).
    exists f. repeat split; [done..|].
    rewrite forEach_setOpacity_other; [done|].
    intros k' Hk'. apply (inv_disjoint s I k' k h Hk' Hk).
  - rewrite forEach_setOpacity_length. apply I.
Qed.

Lemma Inv_opacityCloud v s : Inv s -> Inv (opacityCloud_oninput v s).
Proof.
  intros I. unfold opacityCloud_oninput. constructor; simpl; try apply I.
  - intros k h Hk. destruct (inv_radar s I k h Hk) as (f & Hf & Hs & Hh).
    exists f. repeat split; [done..|].
    rewrite forEach_setOpacity_other; [done|].
    intros k' Hk'. apply (inv_disjoint s I k k' h Hk Hk').
  - intros k h Hk. destruct (inv_cloud s I k h Hk) as (f & Hf & Hs & Hh).
    exists f. repeat split; [done..|].
    rewrite (forEach_setOpacity_cached _ _ _ k h Hk (arr_get_is_array_index _ _ _ Hf)).
    by rewrite Hh.
  - rewrite forEach_setOpacity_length. apply I.
Qed.

(** *** Scheme and base style *)

Lemma Inv_radarStyle sel s : Inv s -> Inv (radarStyle_onchange sel s).
Proof.
  intros I. unfold radarStyle_onchange.
  destruct (radarColorSchemes !! sel) as [id|]; [|done].
  cbv zeta.
  match goal with |- Inv (addOverlays _ ?t) => apply (Inv_addOverlays t) end.
  pose proof (fun h => removeOverlays_only_base (set_optionColorScheme id s) h (inv_map s I))
    as Hb.
  rewrite removeOverlays_fields.
  constructor; simpl; try apply I.
  - intros k h Hk. by rewrite lookup_empty in Hk.
  - intros k1 k2 h Hk. by rewrite lookup_empty in Hk.
  - intros k1 k2 h Hk. by rewrite lookup_empty in Hk.
  - intros k. by rewrite lookup_empty.
  - intros h Hh. left. by apply Hb.
Qed.

Lemma Inv_mapStyle sel s : Inv s -> Inv (mapStyle_onchange sel s).
Proof.
  intros I. unfold mapStyle_onchange.
  destruct (mapStyles !! sel) as [[u attr]|]; [|done].
  unfold tileLayer. simpl.
  match goal with |- Inv (addOverlays _ ?t) => apply (Inv_addOverlays t) end.
  pose proof (Inv_radar_lt s) as Hrl. pose proof (Inv_cloud_lt s) as Hcl.
  constructor; simpl; try apply I.
  - intros k h Hk. destruct (inv_radar s I k h Hk) as (f & Hf & Hs & Hh).
    exists f. repeat split; [done..|]. by apply lookup_app_l_Some.
  - intros k h Hk. destruct (inv_cloud s I k h Hk) as (f & Hf & Hs & Hh).
    exists f. repeat split; [done..|]. by apply lookup_app_l_Some.
  - rewrite length_app. simpl. lia.
  - intros k Hk. specialize (Hrl _ _ I Hk). lia.
  - intros k Hk. specialize (Hcl _ _ I Hk). lia.
  - intros h [->%elem_of_singleton|[Hh Hb]%elem_of_difference]%elem_of_union; [by left|].
    destruct (inv_map s I h Hh) as [->|?]; [set_solver|by right].
Qed.

Lemma Inv_handle e s : Inv s -> Inv (handle e s).
Proof.
  intros I. destruct e; simpl.
  - by apply Inv_playToggle.
  - by apply Inv_showFrame.
  - by apply Inv_showFrame.
  - case_bool_decide; [by apply Inv_showFrame|done].
  - by apply Inv_opacityRain.
  - by apply Inv_opacityCloud.
  - by apply Inv_radarStyle.
  - by apply Inv_mapStyle.
Qed.

Lemma Inv_run evs s : Inv s -> Inv (run evs s).
Proof.
  revert s. induction evs as [|e evs IH]; intros s I; [done|].
  simpl. apply IH. by apply Inv_handle.
Qed.

Lemma Inv_initial : Inv initial.
Proof.
  constructor; simpl; try (intros; by rewrite ?lookup_empty in * ).
  - lia.
  - intros h ->%elem_of_singleton. by left.
Qed.

(** *** The metadata arrives *)

Lemma handle_frames e s :
  radarFrames (handle e s) = radarFrames s
  /\ satelliteFrames (handle e s) = satelliteFrames s.
Proof.
  destruct e; simpl.
  - unfold playToggle. by destruct (playInterval s) as [| |[|n]].
  - destruct (showFrame_frames
      (js_rem (js_add (js_sub (currentFrame s) (Num 1)) (frameMax s)) (frameMax s)) s)
      as (? & ? & _). done.
  - destruct (showFrame_frames (js_rem (js_add (currentFrame s) (Num 1)) (frameMax s)) s)
      as (? & ? & _). done.
  - case_bool_decide; [|done].
    destruct (showFrame_frames (js_rem (js_add (currentFrame s) (Num 1)) (frameMax s)) s)
      as (? & ? & _). done.
  - done.
  - done.
  - unfold radarStyle_onchange. destruct (radarColorSchemes !! sel) as [id|]; [|done].
    match goal with |- context [addOverlays ?k ?t] =>
      destruct (addOverlays_frames k t) as (-> & -> & _) end.
    simpl. apply (removeOverlays_frames (currentFrame s) (set_optionColorScheme id s)).
  - unfold mapStyle_onchange. destruct (mapStyles !! sel) as [[u attr]|]; [|done].
    unfold tileLayer. simpl.
    match goal with |- context [addOverlays ?k ?t] =>
      destruct (addOverlays_frames k t) as (-> & -> & _) end.
    done.
Qed.

Lemma run_frames evs s :
  radarFrames (run evs s) = radarFrames s
  /\ satelliteFrames (run evs s) = satelliteFrames s.
Proof.
  revert s. induction evs as [|e evs IH]; intros s; [done|].
  simpl. destruct (IH (handle e s)) as [-> ->]. apply handle_frames.
Qed.

(** With no frame in one of the lists nothing can be cached, and the map
    holds the base layer only. *)
Lemma Inv_no_frames s :
  Inv s -> maxZ s = 0 ->
  radarOverlayLayers s = ∅ /\ cloudOverlayLayers s = ∅
  /\ forall h, h ∈ mapLayers s -> h = baseLayer s.
Proof.
  intros I Hm.
  assert (forall k, arr_get (radarFrames s) k = None \/ arr_get (satelliteFrames s) k = None)
    as Hnone.
  { intros [z|]; [|by left]. simpl. case_decide; [|by left].
    unfold maxZ in Hm.
    destruct (radarFrames s); [by left|]. destruct (satelliteFrames s); [by right|].
    simpl in Hm. lia. }
  assert (radarOverlayLayers s = ∅) as Hr.
  { apply map_empty. intros k. destruct (radarOverlayLayers s !! k) as [h|] eqn:E; [|done].
    destruct (inv_radar s I k h E) as (f & Hf & [g Hg] & _).
    destruct (Hnone k); congruence. }
  assert (cloudOverlayLayers s = ∅) as Hc.
  { apply map_empty. intros k. destruct (cloudOverlayLayers s !! k) as [h|] eqn:E; [|done].
    destruct (inv_cloud s I k h E) as (f & Hf & [g Hg] & _).
    destruct (Hnone k); congruence. }
  repeat split; [done..|].
  intros h Hh. destruct (inv_map s I h Hh) as [?|[E|E]]; [done|..].
  - by rewrite Hr, lookup_empty in E.
  - by rewrite Hc, lookup_empty in E.
Qed.

Lemma Inv_fetchRainViewerData data s :
  Inv s -> radarFrames s = [] ->
  Inv (fetchRainViewerData data s).
Proof.
  intros I Hnil. unfold fetchRainViewerData.
  destruct (Inv_no_frames s I) as (Hr & Hc & Hm).
  { unfold maxZ. rewrite Hnil. simpl. lia. }
  match goal with |- Inv (addOverlays _ ?t) => apply (Inv_addOverlays t) end.
  constructor; simpl; rewrite ?Hr, ?Hc;
    try (intros; by rewrite ?lookup_empty in * ).
  - apply I.
  - intros h Hh. left. by apply Hm.
Qed.

Theorem reachable_Inv s : reachable s -> Inv s.
Proof.
  intros [pre|pre data post].
  - apply Inv_run, Inv_initial.
  - apply Inv_run, Inv_fetchRainViewerData; [apply Inv_run, Inv_initial|].
    by destruct (run_frames pre initial) as [-> _].
Qed.

Lemma run_app evs1 evs2 s : run (evs1 ++ evs2) s = run evs2 (run evs1 s).
Proof. unfold run. apply foldl_app. Qed.

Lemma reachable_run evs s : reachable s -> reachable (run evs s).
Proof.
  intros [pre|pre data post].
  - rewrite <- run_app. apply reach_before.
  - rewrite <- run_app. apply reach_after.
Qed.

(** ** The empty catalog *)

Lemma js_rem_zero a : js_rem a (Num 0) = NaN.
Proof. by destruct a. Qed.

Lemma showFrame_NaN_empty s :
  radarOverlayLayers s = ∅ -> cloudOverlayLayers s = ∅ ->
  showFrame NaN s = set_currentFrame NaN s.
Proof.
  intros Hr Hc. unfold showFrame, addOverlays. simpl.
  rewrite removeOverlays_eq. unfold cached_at. rewrite Hr, Hc, !lookup_empty.
  rewrite <- (set_mapLayers_id s) at 3. do 2 f_equal. set_solver.
Qed.

(** C2 (as amended): with an empty catalog ([max = 0]) next() and prev() make,
    attach and detach no layer and change nothing except, possibly,
    [currentFrame]; togglePlay() changes nothing but the timer: [playInterval]
    and the browser's timers (it starts a timer, or cancels the running one,
    as with a loaded catalog). *)
Theorem empty_catalog_controls (s : State) :
  reachable s -> maxZ s = 0 ->
  (exists x, nextFrame s = set_currentFrame x s)
  /\ (exists x, prevFrame s = set_currentFrame x s)
  /\ (exists p t iv,
        playToggle s = set_playInterval p (set_lastTimer t (set_intervals iv s)))
  /\ match playInterval s with
     | Val (S n) =>
         playInterval (playToggle s) = Null /\ S n ∉ intervals (playToggle s)
     | _ =>
         playInterval (playToggle s) = Val (S (lastTimer s))
         /\ S (lastTimer s) ∈ intervals (playToggle s)
     end.
Proof.
  intros Hs Hm. destruct (Inv_no_frames s (reachable_Inv s Hs) Hm) as (Hr & Hc & _).
  split; [|split; [|split]]; cycle 3.
  { unfold playToggle. destruct (playInterval s) as [| |[|n]]; simpl;
      (split; [done|set_solver]). }
  - exists NaN. unfold nextFrame. rewrite frameMax_maxZ, Hm, js_rem_zero.
    by apply showFrame_NaN_empty.
  - exists NaN. unfold prevFrame. rewrite frameMax_maxZ, Hm, js_rem_zero.
    by apply showFrame_NaN_empty.
  - unfold playToggle. destruct (playInterval s) as [| |[|n]] eqn:E.
    + by eexists _, _, _.
    + by eexists _, _, _.
    + by eexists _, _, _.
    + exists Null, (lastTimer s), (intervals s ∖ {[S n]}). by destruct s.
Qed.

Lemma empty_catalog_controls_witness :
  (exists x, nextFrame initial = set_currentFrame x initial)
  /\ (exists x, prevFrame initial = set_currentFrame x initial)
  /\ (exists p t iv,
        playToggle initial
        = set_playInterval p (set_lastTimer t (set_intervals iv initial)))
  /\ playInterval (playToggle initial) = Val 1%nat
  /\ 1%nat ∈ intervals (playToggle initial).
Proof.
  apply (empty_catalog_controls initial).
  - apply (reach_before []).
  - reflexivity.
Defined.

(** C2 (as stated) fails on the page as it starts, where the catalog is
    empty: togglePlay() starts a timer, and next() and prev() each turn
    [currentFrame] from 0 into [NaN]. *)
Lemma empty_catalog_controls_not_noops :
  reachable initial
  /\ maxZ initial = 0
  /\ playInterval initial = Undefined
  /\ playInterval (playToggle initial) = Val 1%nat
  /\ elements (intervals (playToggle initial)) = [1%nat]
  /\ playToggle initial <> initial
  /\ currentFrame initial = Num 0
  /\ currentFrame (nextFrame initial) = NaN
  /\ nextFrame initial <> initial
  /\ currentFrame (prevFrame initial) = NaN
  /\ prevFrame initial <> initial.
Proof.
  split; [apply (reach_before [])|].
  repeat split; try (vm_compute; reflexivity).
  - intros H. apply (f_equal playInterval) in H. vm_compute in H. discriminate.
  - intros H. apply (f_equal currentFrame) in H. vm_compute in H. discriminate.
  - intros H. apply (f_equal currentFrame) in H. vm_compute in H. discriminate.
Qed.

(** A step taken before the metadata arrives is not undone by its arrival:
    the index stays [NaN] and no frame is ever shown. *)
Example step_before_load_sticks :
  let s := fetchRainViewerData sample_data (run [Next] initial) in
  currentFrame s = NaN
  /\ elements (mapLayers s) = [baseLayer s]
  /\ currentFrame (run [Next; Prev; Next] s) = NaN
  /\ elements (mapLayers (run [Next; Prev; Next] s)) = [baseLayer s].
Proof. repeat split; vm_compute; reflexivity. Qed.

(** ** The first frame *)

(** C8 (as amended): when the metadata arrives and [currentFrame] is still 0,
    it stays 0; if both frame lists have a first frame, a radar and a satellite
    layer are made for frame 0, cached and attached; and nothing is made or
    attached exactly when at least one of the two lists is empty. *)
Theorem fetchRainViewerData_shows_frame_0 (pre : list Event) (data : WeatherMaps) :
  currentFrame (run pre initial) = Num 0 ->
  let s := run pre initial in
  let s' := fetchRainViewerData data s in
  currentFrame s' = Num 0
  /\ match radarFrames s', satelliteFrames s' with
     | rf :: _, sf :: _ =>
         heap s' = heap s ++ [radar_layer s' rf; cloud_layer s' sf]
         /\ radarOverlayLayers s' = {[Num 0 := length (heap s)]}
         /\ cloudOverlayLayers s' = {[Num 0 := S (length (heap s))]}
         /\ mapLayers s' = {[S (length (heap s))]} ∪ ({[length (heap s)]} ∪ mapLayers s)
     | _, _ =>
         heap s' = heap s
         /\ radarOverlayLayers s' = ∅
         /\ cloudOverlayLayers s' = ∅
         /\ mapLayers s' = mapLayers s
     end.
Proof.
  intros Hc. cbv zeta.
  assert (Inv (run pre initial)) as I by apply Inv_run, Inv_initial.
  destruct (run_frames pre initial) as [Hrf Hsf]. simpl in Hrf, Hsf.
  revert Hc I Hrf Hsf. generalize (run pre initial). intros s Hc I Hrf Hsf.
  destruct (Inv_no_frames s I) as (Hr & Hcl & _).
  { unfold maxZ. rewrite Hrf. simpl. lia. }
  unfold fetchRainViewerData. cbv zeta.
  generalize (or_else (opt_chain (radar data) past) []
              ++ or_else (opt_chain (radar data) nowcast) []).
  generalize (or_else (opt_chain (satellite data) infrared) []).
  intros sfs rfs. simpl. rewrite Hc.
  match goal with |- context [addOverlays _ ?t] => set (t0 := t) end.
  destruct (addOverlays_frames (Num 0) t0) as (-> & -> & ->).
  split; [done|]. simpl. unfold addOverlays. simpl.
  destruct rfs as [|rf rfs]; [done|]. destruct sfs as [|sf sfs]; [done|]. simpl.
  rewrite (addRadarOverlay_fresh (Num 0) rf t0) by (simpl; by rewrite Hr).
  rewrite addCloudOverlay_fresh by (simpl; by rewrite Hcl).
  simpl. rewrite Hr, Hcl, length_app, <- app_assoc. simpl.
  replace (length (heap s) + 1)%nat with (S (length (heap s))) by lia.
  done.
Qed.

Lemma fetchRainViewerData_shows_frame_0_witness :
  currentFrame (fetchRainViewerData sample_data (run [Play; OpacityRain 0.4%Q] initial))
  = Num 0.
Proof.
  assert (currentFrame (run [Play; OpacityRain 0.4%Q] initial) = Num 0) as H
    by (vm_compute; reflexivity).
  destruct (fetchRainViewerData_shows_frame_0 [Play; OpacityRain 0.4%Q] sample_data H)
    as [H0 _].
  exact H0.
Defined.

Example load_sample_attaches_frame_0 :
  elements (mapLayers sample_loaded) = [2; 1; 0]%nat
  /\ heap sample_loaded
     = heap initial ++ [radar_layer sample_loaded sample_radar1;
                        cloud_layer sample_loaded sample_sat].
Proof. split; vm_compute; reflexivity. Qed.

(** C8 (as stated) fails for a document with radar frames and no satellite
    frames: the two lists are not both empty, yet the arrival makes and
    attaches nothing. *)
Lemma load_radar_only_attaches_nothing :
  let s' := fetchRainViewerData radar_only_data initial in
  radarFrames s' = [sample_radar1]
  /\ satelliteFrames s' = []
  /\ ~ (radarFrames s' = [] /\ satelliteFrames s' = [])
  /\ heap s' = heap initial
  /\ mapLayers s' = mapLayers initial
  /\ radarOverlayLayers s' = ∅
  /\ cloudOverlayLayers s' = ∅.
Proof.
  repeat split; try (vm_compute; reflexivity).
  intros [H _]. vm_compute in H. discriminate.
Qed.

(** ** What attaching adds *)

Lemma same_options_refl s : same_options s s.
Proof. by repeat split. Qed.

Lemma same_options_trans s1 s2 s3 :
  same_options s1 s2 -> same_options s2 s3 -> same_options s1 s3.
Proof.
  unfold same_options. intros (?&?&?&?&?&?&?) (?&?&?&?&?&?&?).
  repeat split; congruence.
Qed.

Lemma addOverlays_options k s : same_options s (addOverlays k s).
Proof.
  unfold addOverlays.
  destruct (arr_get (radarFrames s) k) as [rf|]; [|apply same_options_refl].
  destruct (arr_get (satelliteFrames s) k) as [sf|]; [|apply same_options_refl].
  apply (same_options_trans _ (addRadarOverlay k rf s)).
  - destruct (radarOverlayLayers s !! k) as [r|] eqn:E.
    + rewrite (addRadarOverlay_cached _ _ _ _ E). by repeat split.
    + rewrite (addRadarOverlay_fresh _ _ _ E). by repeat split.
  - set (s1 := addRadarOverlay k rf s).
    destruct (cloudOverlayLayers s1 !! k) as [c|] eqn:E.
    + rewrite (addCloudOverlay_cached _ _ _ _ E). by repeat split.
    + rewrite (addCloudOverlay_fresh _ _ _ E). by repeat split.
Qed.

Lemma addOverlays_baseLayer k s : baseLayer (addOverlays k s) = baseLayer s.
Proof.
  unfold addOverlays.
  destruct (arr_get (radarFrames s) k) as [rf|]; [|done].
  destruct (arr_get (satelliteFrames s) k) as [sf|]; [|done].
  transitivity (baseLayer (addRadarOverlay k rf s)).
  - set (s1 := addRadarOverlay k rf s).
    destruct (cloudOverlayLayers s1 !! k) as [c|] eqn:E.
    + by rewrite (addCloudOverlay_cached _ _ _ _ E).
    + by rewrite (addCloudOverlay_fresh _ _ _ E).
  - destruct (radarOverlayLayers s !! k) as [r|] eqn:E.
    + by rewrite (addRadarOverlay_cached _ _ _ _ E).
    + by rewrite (addRadarOverlay_fresh _ _ _ E).
Qed.

Lemma showFrame_options k s : same_options s (showFrame k s).
Proof.
  unfold showFrame.
  eapply same_options_trans; [|apply addOverlays_options].
  rewrite removeOverlays_eq. by repeat split.
Qed.

Lemma nav_options n s : same_options s (handle (nav_event n) s).
Proof. destruct n; apply showFrame_options. Qed.

Lemma run_nav_options navs s : same_options s (run (map nav_event navs) s).
Proof.
  revert s. induction navs as [|n navs IH]; intros s; [apply same_options_refl|].
  simpl. eapply same_options_trans; [apply nav_options|apply IH].
Qed.

Lemma handle_scheme e s :
  is_RadarStyle e = false ->
  optionColorScheme (handle e s) = optionColorScheme s.
Proof.
  destruct e; simpl; try done; intros _.
  - unfold playToggle. by destruct (playInterval s) as [| |[|n]].
  - apply showFrame_options.
  - apply showFrame_options.
  - case_bool_decide; [apply showFrame_options|done].
  - unfold mapStyle_onchange. destruct (mapStyles !! sel) as [[u attr]|]; [|done].
    unfold tileLayer. simpl.
    match goal with |- context [addOverlays ?k ?t] =>
      destruct (addOverlays_options k t) as (_&_&_&->&_) end.
    done.
Qed.

Lemma run_scheme evs s :
  forallb (fun e => negb (is_RadarStyle e)) evs = true ->
  optionColorScheme (run evs s) = optionColorScheme s.
Proof.
  revert s. induction evs as [|e evs IH]; intros s H; [done|].
  simpl in *. apply andb_prop in H as [He Hevs]. rewrite (IH _ Hevs).
  apply handle_scheme. by destruct (is_RadarStyle e).
Qed.

(** Attaching keeps what is cached, and what it adds to a cache is a new
    object under the requested key; objects made before are not touched. *)
Lemma addRadarOverlay_grows k f s :
  let s' := addRadarOverlay k f s in
  (forall k' h, radarOverlayLayers s !! k' = Some h -> radarOverlayLayers s' !! k' = Some h)
  /\ (forall k' h, radarOverlayLayers s' !! k' = Some h ->
        radarOverlayLayers s !! k' = Some h \/ (k' = k /\ length (heap s) <= h)%nat)
  /\ cloudOverlayLayers s' = cloudOverlayLayers s
  /\ exists new, heap s' = heap s ++ new.
Proof.
  cbv zeta. destruct (radarOverlayLayers s !! k) as [r|] eqn:E.
  - rewrite (addRadarOverlay_cached _ _ _ _ E). simpl.
    repeat split; [done|by left|]. exists []. by rewrite app_nil_r.
  - rewrite (addRadarOverlay_fresh _ _ _ E). simpl.
    repeat split.
    + intros k' h Hk. rewrite lookup_insert_ne; [done|congruence].
    + intros k' h [[<- <-]|[Hne Hk]]%lookup_insert_Some; [right|left]; done.
    + by eexists.
Qed.

Lemma addCloudOverlay_grows k f s :
  let s' := addCloudOverlay k f s in
  (forall k' h, cloudOverlayLayers s !! k' = Some h -> cloudOverlayLayers s' !! k' = Some h)
  /\ (forall k' h, cloudOverlayLayers s' !! k' = Some h ->
        cloudOverlayLayers s !! k' = Some h \/ (k' = k /\ length (heap s) <= h)%nat)
  /\ radarOverlayLayers s' = radarOverlayLayers s
  /\ exists new, heap s' = heap s ++ new.
Proof.
  cbv zeta. destruct (cloudOverlayLayers s !! k) as [r|] eqn:E.
  - rewrite (addCloudOverlay_cached _ _ _ _ E). simpl.
    repeat split; [done|by left|]. exists []. by rewrite app_nil_r.
  - rewrite (addCloudOverlay_fresh _ _ _ E). simpl.
    repeat split.
    + intros k' h Hk. rewrite lookup_insert_ne; [done|congruence].
    + intros k' h [[<- <-]|[Hne Hk]]%lookup_insert_Some; [right|left]; done.
    + by eexists.
Qed.

Lemma addOverlays_grows k s :
  let s' := addOverlays k s in
  (forall k' h, radarOverlayLayers s !! k' = Some h -> radarOverlayLayers s' !! k' = Some h)
  /\ (forall k' h, radarOverlayLayers s' !! k' = Some h ->
        radarOverlayLayers s !! k' = Some h \/ (k' = k /\ length (heap s) <= h)%nat)
  /\ (forall k' h, cloudOverlayLayers s !! k' = Some h -> cloudOverlayLayers s' !! k' = Some h)
  /\ (forall k' h, cloudOverlayLayers s' !! k' = Some h ->
        cloudOverlayLayers s !! k' = Some h \/ (k' = k /\ length (heap s) <= h)%nat)
  /\ exists new, heap s' = heap s ++ new.
Proof.
  cbv zeta. unfold addOverlays.
  destruct (arr_get (radarFrames s) k) as [rf|].
  2:{ repeat split; auto. exists []. by rewrite app_nil_r. }
  destruct (arr_get (satelliteFrames s) k) as [sf|].
  2:{ repeat split; auto. exists []. by rewrite app_nil_r. }
  destruct (addRadarOverlay_grows k rf s) as (R1 & R2 & R3 & new1 & R4).
  destruct (addCloudOverlay_grows k sf (addRadarOverlay k rf s))
    as (C1 & C2 & C3 & new2 & C4).
  rewrite C3, C4, R4. rewrite R3 in C1, C2. rewrite R4 in C2.
  repeat split; [done..| |].
  - intros k' h Hk. destruct (C2 k' h Hk) as [?|[-> Hlen]]; [by left|right].
    split; [done|]. rewrite length_app in Hlen. lia.
  - exists (new1 ++ new2). by rewrite app_assoc.
Qed.

Lemma map_addLayer_attached h s : h ∈ mapLayers s -> map_addLayer h s = s.
Proof.
  intros Hh. unfold map_addLayer.
  rewrite <- (set_mapLayers_id s) at 3. f_equal. set_solver.
Qed.

Lemma addOverlays_idemp k s : addOverlays k (addOverlays k s) = addOverlays k s.
Proof.
  pose proof (addOverlays_cases k s) as Hcases.
  destruct (addOverlays_frames k s) as (Hrf & Hsf & _).
  revert Hcases Hrf Hsf. generalize (addOverlays k s). intros s1 Hcases Hrf Hsf.
  unfold addOverlays. rewrite Hrf, Hsf.
  destruct (arr_get (radarFrames s) k) as [rf|]; [|done].
  destruct (arr_get (satelliteFrames s) k) as [sf|]; [|done].
  destruct Hcases as (r & c & Hr & Hc & Hrm & Hcm).
  rewrite (addRadarOverlay_cached _ _ _ _ Hr), (map_addLayer_attached _ _ Hrm).
  by rewrite (addCloudOverlay_cached _ _ _ _ Hc), (map_addLayer_attached _ _ Hcm).
Qed.

(** ** One layer per frame and class *)

(** C4: asking for the overlays of a frame a second time hands back the cached
    layers and builds nothing (the state, heap of layer objects included, is
    the one after the first request); and at any time each overlay on the map
    is the layer cached for the current frame in its class, a cache holds one
    layer per index, and no layer object is cached under two indices or in
    both classes. *)
Theorem one_layer_per_class_and_index :
  (forall frameIndex s,
     addOverlays frameIndex (addOverlays frameIndex s) = addOverlays frameIndex s)
  /\ (forall s, reachable s ->
        (forall h, h ∈ mapLayers s -> h <> baseLayer s ->
           radarOverlayLayers s !! currentFrame s = Some h
           \/ cloudOverlayLayers s !! currentFrame s = Some h)
        /\ (forall k h1 h2,
              (radarOverlayLayers s !! k = Some h1 -> radarOverlayLayers s !! k = Some h2 ->
               h1 = h2)
              /\ (cloudOverlayLayers s !! k = Some h1 -> cloudOverlayLayers s !! k = Some h2 ->
                  h1 = h2))
        /\ (forall k1 k2 h,
              (radarOverlayLayers s !! k1 = Some h -> radarOverlayLayers s !! k2 = Some h ->
               k1 = k2)
              /\ (cloudOverlayLayers s !! k1 = Some h -> cloudOverlayLayers s !! k2 = Some h ->
                  k1 = k2)
              /\ ~ (radarOverlayLayers s !! k1 = Some h /\ cloudOverlayLayers s !! k2 = Some h))).
Proof.
  split; [apply addOverlays_idemp|].
  intros s Hs. pose proof (reachable_Inv s Hs) as I.
  split; [|split].
  - intros h Hh Hb. by destruct (inv_map s I h Hh) as [?|?].
  - intros k h1 h2. split; congruence.
  - intros k1 k2 h. repeat split.
    + apply (inv_radar_inj s I).
    + apply (inv_cloud_inj s I).
    + intros [Hr Hc]. apply (inv_disjoint s I k1 k2 h Hr Hc).
Qed.

Lemma one_layer_per_class_and_index_witness :
  radarOverlayLayers (run [Next; RadarStyle "titan"] sample_loaded)
    !! currentFrame (run [Next; RadarStyle "titan"] sample_loaded) = Some 5%nat
  \/ cloudOverlayLayers (run [Next; RadarStyle "titan"] sample_loaded)
       !! currentFrame (run [Next; RadarStyle "titan"] sample_loaded) = Some 5%nat.
Proof.
  destruct one_layer_per_class_and_index as [_ H].
  destruct (H (run [Next; RadarStyle "titan"] sample_loaded)) as [H1 _].
  - apply (reach_after [] sample_data [Next; RadarStyle "titan"]).
  - apply H1.
    + apply (bool_decide_unpack _). vm_compute. exact Logic.I.
    + vm_compute. discriminate.
Defined.

Example second_request_builds_nothing :
  length (heap (addOverlays (Num 1) sample_loaded)) = 5%nat
  /\ length (heap (addOverlays (Num 1) (addOverlays (Num 1) sample_loaded))) = 5%nat
  /\ radarOverlayLayers (addOverlays (Num 1) (addOverlays (Num 1) sample_loaded)) !! Num 1
     = Some 3%nat.
Proof. repeat split; vm_compute; reflexivity. Qed.

(** ** Opacity *)

(** C6: moving an opacity slider stores the value and sets it on every cached
    layer of that class, whatever frame it belongs to (the layer keeps its
    URL); the cache itself is as before, and through any later stepping every
    cached layer of the class, old or newly made, has that opacity. *)
Theorem opacity_reaches_every_cached_layer (s : State) (v : Q) :
  reachable s ->
  (rainOpacity (opacityRain_oninput v s) = v
   /\ radarOverlayLayers (opacityRain_oninput v s) = radarOverlayLayers s
   /\ (forall k h, radarOverlayLayers s !! k = Some h ->
         exists l, heap s !! h = Some l
                   /\ heap (opacityRain_oninput v s) !! h = Some (Layer_setOpacity v l))
   /\ (forall navs k h,
         radarOverlayLayers (run (map nav_event navs) (opacityRain_oninput v s)) !! k = Some h ->
         exists l, heap (run (map nav_event navs) (opacityRain_oninput v s)) !! h = Some l
                   /\ opacity l = v))
  /\ (cloudOpacity (opacityCloud_oninput v s) = v
      /\ cloudOverlayLayers (opacityCloud_oninput v s) = cloudOverlayLayers s
      /\ (forall k h, cloudOverlayLayers s !! k = Some h ->
            exists l, heap s !! h = Some l
                      /\ heap (opacityCloud_oninput v s) !! h = Some (Layer_setOpacity v l))
      /\ (forall navs k h,
            cloudOverlayLayers (run (map nav_event navs) (opacityCloud_oninput v s)) !! k = Some h ->
            exists l, heap (run (map nav_event navs) (opacityCloud_oninput v s)) !! h = Some l
                      /\ opacity l = v)).
Proof.
  intros Hs. pose proof (reachable_Inv s Hs) as I. split.
  - repeat split.
    + intros k h Hk. destruct (inv_radar s I k h Hk) as (f & Hf & _ & Hh).
      exists (radar_layer s f). split; [done|]. simpl.
      rewrite (forEach_setOpacity_cached _ _ _ k h Hk (arr_get_is_array_index _ _ _ Hf)).
      by rewrite Hh.
    + intros navs k h Hk.
      set (s2 := run (map nav_event navs) (opacityRain_oninput v s)) in *.
      assert (Inv s2) as I2 by by apply Inv_run, Inv_opacityRain.
      destruct (inv_radar s2 I2 k h Hk) as (f & _ & _ & Hh).
      exists (radar_layer s2 f). split; [done|]. simpl.
      destruct (run_nav_options navs (opacityRain_oninput v s)) as (_ & Ho & _).
      fold s2 in Ho. by rewrite Ho.
  - repeat split.
    + intros k h Hk. destruct (inv_cloud s I k h Hk) as (f & Hf & _ & Hh).
      exists (cloud_layer s f). split; [done|]. simpl.
      rewrite (forEach_setOpacity_cached _ _ _ k h Hk (arr_get_is_array_index _ _ _ Hf)).
      by rewrite Hh.
    + intros navs k h Hk.
      set (s2 := run (map nav_event navs) (opacityCloud_oninput v s)) in *.
      assert (Inv s2) as I2 by by apply Inv_run, Inv_opacityCloud.
      destruct (inv_cloud s2 I2 k h Hk) as (f & _ & _ & Hh).
      exists (cloud_layer s2 f). split; [done|]. simpl.
      destruct (run_nav_options navs (opacityCloud_oninput v s)) as (_ & _ & Ho & _).
      fold s2 in Ho. by rewrite Ho.
Qed.

Lemma opacity_reaches_every_cached_layer_witness :
  rainOpacity (opacityRain_oninput 0.4%Q (run [Next] sample_loaded)) = 0.4%Q
  /\ cloudOpacity (opacityCloud_oninput 0.4%Q (run [Next] sample_loaded)) = 0.4%Q.
Proof.
  destruct (opacity_reaches_every_cached_layer (run [Next] sample_loaded) 0.4%Q)
    as [(H1 & _) (H2 & _)].
  - apply (reach_after [] sample_data [Next]).
  - exact (conj H1 H2).
Defined.

Example opacity_on_hidden_frame :
  let s := run [Next] sample_loaded in
  currentFrame s = Num 1
  /\ radarOverlayLayers s !! Num 0 = Some 1%nat
  /\ opacity <$> heap s !! 1%nat = Some 1%Q
  /\ opacity <$> heap (opacityRain_oninput 0.4%Q s) !! 1%nat = Some 0.4%Q
  /\ opacity <$> heap (opacityRain_oninput 0.4%Q s) !! 2%nat = Some 1%Q.
Proof. repeat split; vm_compute; reflexivity. Qed.

(** ** Changing the colour scheme *)

Lemma buildRadarTileUrl_radar_url s f :
  buildRadarTileUrl s f
  = radar_url (apiHost s) (path f) (optionColorScheme s) (optionSmoothData s)
      (optionSnowColors s) (optionExtension s).
Proof. reflexivity. Qed.

Lemma radarStyle_onchange_eq sel id s :
  radarColorSchemes !! sel = Some id ->
  radarStyle_onchange sel s
  = addOverlays (currentFrame s)
      (set_radarOverlayLayers ∅
         (set_mapLayers (mapLayers s ∖ cached_at (radarOverlayLayers s) (currentFrame s)
                                     ∖ cached_at (cloudOverlayLayers s) (currentFrame s))
            (set_optionColorScheme id s))).
Proof.
  intros H. unfold radarStyle_onchange. rewrite H. cbv zeta.
  rewrite removeOverlays_eq. reflexivity.
Qed.

(** C3: choosing a colour scheme stores its id, takes the current frame's old
    radar layer off the map, empties the radar cache (what it holds afterwards
    is new and belongs to the current frame), leaves the satellite cache and
    its layer objects as they were, so that a later request for a cached
    satellite index yields the layer cached before, and puts the current
    frame's two layers back on the map; from then on, until the scheme is
    changed again, the URL of every cached radar layer carries the new id. *)
Theorem radarStyle_onchange_effect (s : State) (sel : string) (id : nat) :
  reachable s ->
  radarColorSchemes !! sel = Some id ->
  optionColorScheme (radarStyle_onchange sel s) = id
  /\ (forall h, radarOverlayLayers s !! currentFrame s = Some h ->
        h ∉ mapLayers (radarStyle_onchange sel s))
  /\ (forall k h, radarOverlayLayers (radarStyle_onchange sel s) !! k = Some h ->
        k = currentFrame s /\ (length (heap s) <= h)%nat)
  /\ (forall k h, cloudOverlayLayers s !! k = Some h ->
        cloudOverlayLayers (radarStyle_onchange sel s) !! k = Some h
        /\ heap (radarStyle_onchange sel s) !! h = heap s !! h
        /\ forall i,
             cloudOverlayLayers (addOverlays i (radarStyle_onchange sel s)) !! k = Some h)
  /\ match arr_get (radarFrames s) (currentFrame s),
           arr_get (satelliteFrames s) (currentFrame s) with
     | Some _, Some _ =>
         exists r c,
           radarOverlayLayers (radarStyle_onchange sel s) !! currentFrame s = Some r
           /\ cloudOverlayLayers (radarStyle_onchange sel s) !! currentFrame s = Some c
           /\ r ∈ mapLayers (radarStyle_onchange sel s)
           /\ c ∈ mapLayers (radarStyle_onchange sel s)
     | _, _ => True
     end
  /\ (forall post k h,
        forallb (fun e => negb (is_RadarStyle e)) post = true ->
        radarOverlayLayers (run post (radarStyle_onchange sel s)) !! k = Some h ->
        exists f l,
          arr_get (radarFrames (run post (radarStyle_onchange sel s))) k = Some f
          /\ heap (run post (radarStyle_onchange sel s)) !! h = Some l
          /\ url l
             = radar_url (apiHost (run post (radarStyle_onchange sel s))) (path f) id
                 (optionSmoothData (run post (radarStyle_onchange sel s)))
                 (optionSnowColors (run post (radarStyle_onchange sel s)))
                 (optionExtension (run post (radarStyle_onchange sel s)))).
Proof.
  intros Hs Hsel.
  pose proof (reachable_Inv s Hs) as I.
  assert (reachable (radarStyle_onchange sel s)) as Hs'
    by apply (reachable_run [RadarStyle sel] s Hs).
  pose proof (reachable_Inv _ Hs') as I'.
  assert (exists t,
            radarStyle_onchange sel s = addOverlays (currentFrame s) t
            /\ optionColorScheme t = id
            /\ radarOverlayLayers t = ∅
            /\ cloudOverlayLayers t = cloudOverlayLayers s
            /\ heap t = heap s
            /\ baseLayer t = baseLayer s
            /\ radarFrames t = radarFrames s
            /\ satelliteFrames t = satelliteFrames s)
    as (t & Ht & Hid & Hr & Hc & Hh & Hb & Hrf & Hsf).
  { eexists. split; [by apply radarStyle_onchange_eq|]. by repeat split. }
  destruct (addOverlays_grows (currentFrame s) t) as (R1 & R2 & C1 & C2 & new & Hnew).
  rewrite <- Ht, Hr, Hh in *. rewrite Hc in C1, C2.
  assert (Hbase : baseLayer (radarStyle_onchange sel s) = baseLayer s).
  { rewrite Ht, <- Hb. apply addOverlays_baseLayer. }
  clear Hb.
  assert (Hscheme : optionColorScheme (radarStyle_onchange sel s) = id).
  { rewrite Ht. by destruct (addOverlays_options (currentFrame s) t) as (_&_&_&->&_). }
  assert (Hfresh : forall k h, radarOverlayLayers (radarStyle_onchange sel s) !! k = Some h ->
            k = currentFrame s /\ (length (heap s) <= h)%nat).
  { intros k h Hk. destruct (R2 k h Hk) as [E|?]; [by rewrite lookup_empty in E|done]. }
  split; [done|]. split; [|split; [done|split; [|split]]].
  - intros h Hh' Hin.
    pose proof (Inv_radar_lt s _ _ I Hh') as Hlt.
    destruct (inv_map _ I' h Hin) as [Hb|[E|E]].
    + apply (inv_base_radar s I (currentFrame s)). by rewrite Hh', Hb, Hbase.
    + apply Hfresh in E as [_ E]. lia.
    + destruct (C2 _ _ E) as [E'|[_ E']]; [|lia].
      apply (inv_disjoint s I _ _ h Hh' E').
  - intros k h Hk. split; [by apply C1|]. split.
    + pose proof (Inv_cloud_lt s _ _ I Hk) as Hlt.
      rewrite Hnew. by apply lookup_app_l.
    + intros i.
      destruct (addOverlays_grows i (radarStyle_onchange sel s)) as (_ & _ & C3 & _).
      by apply C3, C1.
  - pose proof (addOverlays_cases (currentFrame s) t) as Hcases.
    rewrite <- Ht, Hrf, Hsf in Hcases.
    destruct (arr_get (radarFrames s) (currentFrame s)); [|done].
    by destruct (arr_get (satelliteFrames s) (currentFrame s)).
  - intros post k h Hpost Hk.
    set (s2 := run post (radarStyle_onchange sel s)) in *.
    assert (Inv s2) as I2 by by apply Inv_run.
    destruct (inv_radar s2 I2 k h Hk) as (f & Hf & _ & Hl).
    exists f, (radar_layer s2 f). repeat split; [done..|].
    simpl. rewrite buildRadarTileUrl_radar_url. f_equal.
    unfold s2. by rewrite run_scheme.
Qed.

Lemma radarStyle_onchange_effect_witness :
  optionColorScheme (radarStyle_onchange "raw" (run [Next] sample_loaded)) = 0%nat
  /\ forall k h,
       cloudOverlayLayers (run [Next] sample_loaded) !! k = Some h ->
       cloudOverlayLayers (radarStyle_onchange "raw" (run [Next] sample_loaded)) !! k = Some h.
Proof.
  assert (radarColorSchemes !! "raw" = Some 0%nat) as Hsel by (vm_compute; reflexivity).
  destruct (radarStyle_onchange_effect (run [Next] sample_loaded) "raw" 0%nat)
    as (H1 & _ & _ & H4 & _).
  - apply (reach_after [] sample_data [Next]).
  - exact Hsel.
  - split; [exact H1|]. intros k h Hk. destruct (H4 k h Hk) as [H _]. exact H.
Defined.

Example radarStyle_rebuilds_current_frame :
  let s := run [Next] sample_loaded in
  let s' := radarStyle_onchange "raw" s in
  map_to_list (radarOverlayLayers s) = [(Num 1, 3%nat); (Num 0, 1%nat)]
  /\ map_to_list (radarOverlayLayers s') = [(Num 1, 5%nat)]
  /\ cloudOverlayLayers s' = cloudOverlayLayers s
  /\ mapLayers s = {[0; 3; 4]}%nat
  /\ mapLayers s' = {[0; 4; 5]}%nat
  /\ url <$> heap s' !! 5%nat
     = Some "https://tilecache.rainviewer.com/v2/radar/200/256/{z}/{x}/{y}/0/1_1.webp"
  /\ url <$> heap s' !! 3%nat
     = Some "https://tilecache.rainviewer.com/v2/radar/200/256/{z}/{x}/{y}/2/1_1.webp".
Proof. repeat split; vm_compute; reflexivity. Qed.

(** A value that is no key of [radarColorSchemes] changes nothing. *)
Example radarStyle_unknown_key (s : State) :
  radarStyle_onchange "toString" s = s.
Proof. reflexivity. Qed.

(** * Further properties of the script *)

(** ** What is on the map *)

Lemma addOverlays_map_mono k s h : h ∈ mapLayers s -> h ∈ mapLayers (addOverlays k s).
Proof.
  intros Hh. unfold addOverlays.
  destruct (arr_get (radarFrames s) k) as [rf|]; [|done].
  destruct (arr_get (satelliteFrames s) k) as [sf|]; [|done].
  assert (h ∈ mapLayers (addRadarOverlay k rf s)) as H1.
  { destruct (radarOverlayLayers s !! k) as [r|] eqn:E.
    - rewrite (addRadarOverlay_cached _ _ _ _ E). simpl. set_solver.
    - rewrite (addRadarOverlay_fresh _ _ _ E). simpl. set_solver. }
  set (s1 := addRadarOverlay k rf s) in *.
  destruct (cloudOverlayLayers s1 !! k) as [c|] eqn:E.
  - rewrite (addCloudOverlay_cached _ _ _ _ E). simpl. set_solver.
  - rewrite (addCloudOverlay_fresh _ _ _ E). simpl. set_solver.
Qed.

Lemma Shown_addOverlays s :
  baseLayer s ∈ mapLayers s -> Shown (addOverlays (currentFrame s) s).
Proof.
  intros Hb. pose proof (addOverlays_cases (currentFrame s) s) as Hcases.
  destruct (addOverlays_frames (currentFrame s) s) as (Hrf & Hsf & Hc).
  constructor.
  - rewrite addOverlays_baseLayer. by apply addOverlays_map_mono.
  - rewrite Hrf, Hsf, Hc.
    destruct (arr_get (radarFrames s) (currentFrame s)); [|done].
    by destruct (arr_get (satelliteFrames s) (currentFrame s)).
Qed.

Lemma removeOverlays_keeps_base s :
  Inv s -> baseLayer s ∈ mapLayers s ->
  baseLayer s ∈ mapLayers (removeOverlays (currentFrame s) s).
Proof.
  intros I Hb. rewrite removeOverlays_eq. simpl. unfold cached_at.
  pose proof (inv_base_radar s I (currentFrame s)).
  pose proof (inv_base_cloud s I (currentFrame s)).
  destruct (radarOverlayLayers s !! currentFrame s) as [r|],
           (cloudOverlayLayers s !! currentFrame s) as [c|];
    repeat (apply elem_of_difference; split); try done;
    intros Hx%elem_of_singleton; congruence.
Qed.

Lemma Shown_showFrame index s : Inv s -> Shown s -> Shown (showFrame index s).
Proof.
  intros I Sh. unfold showFrame.
  apply (Shown_addOverlays (set_currentFrame index (removeOverlays (currentFrame s) s))).
  pose proof (removeOverlays_keeps_base s I (shown_base s Sh)) as Hb.
  rewrite removeOverlays_fields in *. exact Hb.
Qed.

Lemma Shown_handle e s : Inv s -> Shown s -> Shown (handle e s).
Proof.
  intros I Sh. destruct e; simpl.
  - unfold playToggle. destruct (playInterval s) as [| |[|n]];
      constructor; simpl; apply Sh.
  - by apply Shown_showFrame.
  - by apply Shown_showFrame.
  - case_bool_decide; [by apply Shown_showFrame|done].
  - constructor; simpl; apply Sh.
  - constructor; simpl; apply Sh.
  - unfold radarStyle_onchange. destruct (radarColorSchemes !! sel) as [id|]; [|done].
    cbv zeta.
    match goal with |- Shown (addOverlays _ ?t) => apply (Shown_addOverlays t) end.
    pose proof (removeOverlays_keeps_base s I (shown_base s Sh)) as Hb.
    rewrite removeOverlays_eq in Hb. rewrite removeOverlays_eq. exact Hb.
  - unfold mapStyle_onchange. destruct (mapStyles !! sel) as [[u attr]|]; [|done].
    unfold tileLayer. simpl.
    match goal with |- Shown (addOverlays _ ?t) => apply (Shown_addOverlays t) end.
    simpl. set_solver.
Qed.

Lemma Shown_initial : Shown initial.
Proof. constructor; simpl; [set_solver|done]. Qed.

Lemma Shown_fetchRainViewerData data s : Shown s -> Shown (fetchRainViewerData data s).
Proof.
  intros Sh. unfold fetchRainViewerData. cbv zeta.
  match goal with |- Shown (addOverlays _ ?t) => apply (Shown_addOverlays t) end.
  simpl. apply Sh.
Qed.

Lemma Inv_Shown_run evs s : Inv s -> Shown s -> Inv (run evs s) /\ Shown (run evs s).
Proof.
  revert s. induction evs as [|e evs IH]; intros s I Sh; [done|].
  simpl. apply IH; [by apply Inv_handle|by apply Shown_handle].
Qed.

Lemma reachable_Shown s : reachable s -> Shown s.
Proof.
  intros [pre|pre data post].
  - by apply Inv_Shown_run; [apply Inv_initial|apply Shown_initial].
  - destruct (Inv_Shown_run pre initial Inv_initial Shown_initial) as [I Sh].
    apply Inv_Shown_run; [|by apply Shown_fetchRainViewerData].
    apply Inv_fetchRainViewerData; [done|].
    by destruct (run_frames pre initial) as [-> _].
Qed.

Lemma map_contents s :
  Inv s -> Shown s ->
  mapLayers s
  = {[baseLayer s]} ∪ cached_at (radarOverlayLayers s) (currentFrame s)
                    ∪ cached_at (cloudOverlayLayers s) (currentFrame s).
Proof.
  intros I Sh. apply set_eq. intros h. unfold cached_at. split.
  - intros Hh. destruct (inv_map s I h Hh) as [->|[E|E]]; rewrite ?E; set_solver.
  - pose proof (shown_base s Sh) as Hb. pose proof (shown_frame s Sh) as Hf.
    intros [[->%elem_of_singleton|Hr]%elem_of_union|Hc]%elem_of_union; [done|..].
    + destruct (radarOverlayLayers s !! currentFrame s) as [r|] eqn:E; [|set_solver].
      apply elem_of_singleton in Hr as ->.
      destruct (inv_radar s I _ _ E) as (f & Ef & [g Eg] & _).
      rewrite Ef, Eg in Hf.
      destruct Hf as (r' & c' & ? & ? & ? & ?). congruence.
    + destruct (cloudOverlayLayers s !! currentFrame s) as [c|] eqn:E; [|set_solver].
      apply elem_of_singleton in Hc as ->.
      destruct (inv_cloud s I _ _ E) as (f & Ef & [g Eg] & _).
      rewrite Ef, Eg in Hf.
      destruct Hf as (r' & c' & ? & ? & ? & ?). congruence.
Qed.

(** X1: [removeOverlays] only takes the layers cached for the given frame off
    the map: the heap of layer objects, both caches and every other global
    stay as they are (so the layers can be attached again later), and a second
    call changes nothing more. *)
Theorem removeOverlays_detaches_only (frameIndex : jsnum) (s : State) :
  removeOverlays frameIndex s
  = set_mapLayers (mapLayers s ∖ cached_at (radarOverlayLayers s) frameIndex
                               ∖ cached_at (cloudOverlayLayers s) frameIndex) s
  /\ (forall h, h ∈ cached_at (radarOverlayLayers s) frameIndex
                    ∪ cached_at (cloudOverlayLayers s) frameIndex ->
                h ∉ mapLayers (removeOverlays frameIndex s))
  /\ removeOverlays frameIndex (removeOverlays frameIndex s) = removeOverlays frameIndex s.
Proof.
  split; [apply removeOverlays_eq|split].
  - intros h Hh. rewrite removeOverlays_eq. simpl. set_solver.
  - rewrite (removeOverlays_eq frameIndex (removeOverlays frameIndex s)).
    rewrite !removeOverlays_eq. simpl. unfold set_mapLayers. simpl. f_equal. set_solver.
Qed.

(** X2: in every state the page can reach, the map holds exactly the base
    layer and the layers cached for the current frame; these two overlays are
    there whenever both frame lists have the current frame, and no overlay is
    there otherwise. *)
Theorem map_shows_base_and_current_frame (s : State) :
  reachable s ->
  mapLayers s
  = {[baseLayer s]} ∪ cached_at (radarOverlayLayers s) (currentFrame s)
                    ∪ cached_at (cloudOverlayLayers s) (currentFrame s)
  /\ match arr_get (radarFrames s) (currentFrame s),
           arr_get (satelliteFrames s) (currentFrame s) with
     | Some _, Some _ =>
         exists r c,
           radarOverlayLayers s !! currentFrame s = Some r
           /\ cloudOverlayLayers s !! currentFrame s = Some c
           /\ mapLayers s = {[baseLayer s; r; c]}
     | _, _ => mapLayers s = {[baseLayer s]}
     end.
Proof.
  intros Hs. pose proof (reachable_Inv s Hs) as I. pose proof (reachable_Shown s Hs) as Sh.
  pose proof (map_contents s I Sh) as Hm. split; [done|].
  pose proof (shown_frame s Sh) as Hf.
  assert (Hnone : forall k : jsnum,
            arr_get (radarFrames s) k = None \/ arr_get (satelliteFrames s) k = None ->
            cached_at (radarOverlayLayers s) k = ∅ /\ cached_at (cloudOverlayLayers s) k = ∅).
  { intros k Hk. unfold cached_at. split.
    - destruct (radarOverlayLayers s !! k) as [h|] eqn:E; [|done].
      destruct (inv_radar s I k h E) as (f & Ef & [g Eg] & _). destruct Hk; congruence.
    - destruct (cloudOverlayLayers s !! k) as [h|] eqn:E; [|done].
      destruct (inv_cloud s I k h E) as (f & Ef & [g Eg] & _). destruct Hk; congruence. }
  destruct (arr_get (radarFrames s) (currentFrame s)) as [rf|] eqn:Er.
  - destruct (arr_get (satelliteFrames s) (currentFrame s)) as [sf|] eqn:Es.
    + destruct Hf as (r & c & Hr & Hc & _). exists r, c. repeat split; [done..|].
      rewrite Hm. unfold cached_at. rewrite Hr, Hc. set_solver.
    + destruct (Hnone (currentFrame s)) as [H1 H2]; [by right|].
      rewrite Hm, H1, H2. set_solver.
  - destruct (Hnone (currentFrame s)) as [H1 H2]; [by left|].
    rewrite Hm, H1, H2. set_solver.
Qed.

Lemma map_shows_base_and_current_frame_witness :
  mapLayers (run [Next; RadarStyle "titan"; Prev] sample_loaded)
  = {[baseLayer (run [Next; RadarStyle "titan"; Prev] sample_loaded)]}
    ∪ cached_at (radarOverlayLayers (run [Next; RadarStyle "titan"; Prev] sample_loaded))
        (currentFrame (run [Next; RadarStyle "titan"; Prev] sample_loaded))
    ∪ cached_at (cloudOverlayLayers (run [Next; RadarStyle "titan"; Prev] sample_loaded))
        (currentFrame (run [Next; RadarStyle "titan"; Prev] sample_loaded)).
Proof.
  destruct (map_shows_base_and_current_frame
              (run [Next; RadarStyle "titan"; Prev] sample_loaded)) as [H _].
  - apply (reach_after [] sample_data [Next; RadarStyle "titan"; Prev]).
  - exact H.
Defined.

Lemma set_currentFrame_id s : set_currentFrame (currentFrame s) s = s.
Proof. by destruct s. Qed.

(** [showFrame] for a frame both of whose layers are cached. *)
Lemma showFrame_cached index s r c :
  radarOverlayLayers s !! index = Some r ->
  cloudOverlayLayers s !! index = Some c ->
  is_Some (arr_get (radarFrames s) index) ->
  is_Some (arr_get (satelliteFrames s) index) ->
  showFrame index s
  = set_mapLayers
      ({[c]} ∪ ({[r]} ∪ (mapLayers s ∖ cached_at (radarOverlayLayers s) (currentFrame s)
                                      ∖ cached_at (cloudOverlayLayers s) (currentFrame s))))
      (set_currentFrame index s).
Proof.
  intros Hr Hc [rf Hrf] [sf Hsf]. unfold showFrame. rewrite removeOverlays_eq.
  unfold addOverlays. simpl. rewrite Hrf, Hsf.
  rewrite (addRadarOverlay_cached _ _ _ r) by done.
  by rewrite (addCloudOverlay_cached _ _ _ c) by done.
Qed.

Lemma set_mapLayers_same m s : m = mapLayers s -> set_mapLayers m s = s.
Proof. intros ->. apply set_mapLayers_id. Qed.

Lemma showFrame_current s : Inv s -> Shown s -> showFrame (currentFrame s) s = s.
Proof.
  intros I Sh. pose proof (map_contents s I Sh) as Hm.
  pose proof (shown_frame s Sh) as Hf.
  assert (Hnone : arr_get (radarFrames s) (currentFrame s) = None
                  \/ arr_get (satelliteFrames s) (currentFrame s) = None ->
                  showFrame (currentFrame s) s = s).
  { intros Hk. unfold showFrame.
    assert (addOverlays (currentFrame s) (set_currentFrame (currentFrame s)
              (removeOverlays (currentFrame s) s))
            = set_currentFrame (currentFrame s) (removeOverlays (currentFrame s) s)) as ->.
    { unfold addOverlays. rewrite removeOverlays_eq. simpl.
      destruct Hk as [-> | Hk]; [done|]. rewrite Hk.
      by destruct (arr_get (radarFrames s) (currentFrame s)). }
    rewrite removeOverlays_eq.
    transitivity (set_currentFrame (currentFrame s) s); [|apply set_currentFrame_id].
    f_equal. apply set_mapLayers_same. unfold cached_at.
    destruct (radarOverlayLayers s !! currentFrame s) as [h|] eqn:E.
    { destruct (inv_radar s I _ _ E) as (f & Ef & [g Eg] & _). destruct Hk; congruence. }
    destruct (cloudOverlayLayers s !! currentFrame s) as [h|] eqn:E'.
    { destruct (inv_cloud s I _ _ E') as (f & Ef & [g Eg] & _). destruct Hk; congruence. }
    set_solver. }
  destruct (arr_get (radarFrames s) (currentFrame s)) as [rf|] eqn:Er; [|by apply Hnone; left].
  destruct (arr_get (satelliteFrames s) (currentFrame s)) as [sf|] eqn:Es;
    [|by apply Hnone; right].
  destruct Hf as (r & c & Hr & Hc & Hrm & Hcm).
  rewrite (showFrame_cached _ _ r c) by eauto.
  rewrite set_currentFrame_id. apply set_mapLayers_same.
  unfold cached_at. rewrite Hr, Hc. apply set_eq. intros h.
  destruct (decide (h = r)) as [->|]; [set_solver|].
  destruct (decide (h = c)) as [->|]; set_solver.
Qed.

Lemma reachable_loaded data : reachable (fetchRainViewerData data initial).
Proof. exact (reach_after [] data []). Qed.

(** X3: showing the frame that is already current changes nothing at all; so
    with a single frame ([max = 1]) next() and prev() leave the whole state,
    not only the index, as it is. *)
Theorem showing_the_current_frame_is_a_noop (s : State) :
  reachable s ->
  showFrame (currentFrame s) s = s
  /\ (index_in_range s -> maxZ s = 1 -> nextFrame s = s /\ prevFrame s = s).
Proof.
  intros Hs.
  pose proof (showFrame_current s (reachable_Inv s Hs) (reachable_Shown s Hs)) as Hshow.
  split; [done|]. intros (i & Hc & Hi) Hm.
  assert (i = 0) as -> by lia.
  unfold nextFrame, prevFrame. rewrite frameMax_maxZ, Hm, Hc.
  change (js_rem (js_add (Num 0) (Num 1)) (Num 1)) with (Num 0).
  change (js_rem (js_add (js_sub (Num 0) (Num 1)) (Num 1)) (Num 1)) with (Num 0).
  rewrite <- Hc. by split.
Qed.

Lemma showing_the_current_frame_is_a_noop_witness :
  showFrame (currentFrame single_loaded) single_loaded = single_loaded
  /\ nextFrame single_loaded = single_loaded
  /\ prevFrame single_loaded = single_loaded.
Proof.
  destruct (showing_the_current_frame_is_a_noop single_loaded) as [H1 H2].
  - exact (reachable_loaded single_data).
  - assert (index_in_range single_loaded) as Hr.
    { clear. exists 0. split; [reflexivity|]. vm_compute.
      split; [intros H; discriminate H|reflexivity]. }
    assert (maxZ single_loaded = 1) as Hm by (vm_compute; reflexivity).
    exact (conj H1 (H2 Hr Hm)).
Defined.

(** X4: going to a frame whose two layers are cached builds no layer object
    and leaves both caches alone; afterwards the map holds the base layer and
    that frame's two cached layers, nothing else. *)
Theorem revisiting_a_frame_builds_nothing (s : State) (index : jsnum) (r c : nat) :
  reachable s ->
  radarOverlayLayers s !! index = Some r ->
  cloudOverlayLayers s !! index = Some c ->
  heap (showFrame index s) = heap s
  /\ radarOverlayLayers (showFrame index s) = radarOverlayLayers s
  /\ cloudOverlayLayers (showFrame index s) = cloudOverlayLayers s
  /\ currentFrame (showFrame index s) = index
  /\ mapLayers (showFrame index s) = {[baseLayer s; r; c]}.
Proof.
  intros Hs Hr Hc. pose proof (reachable_Inv s Hs) as I.
  pose proof (map_contents s I (reachable_Shown s Hs)) as Hm.
  destruct (inv_radar s I _ _ Hr) as (f & Hf & Hg & _).
  rewrite (showFrame_cached index s r c) by eauto. simpl.
  repeat split; [done..|]. rewrite Hm.
  pose proof (inv_base_radar s I (currentFrame s)) as B1.
  pose proof (inv_base_cloud s I (currentFrame s)) as B2.
  unfold cached_at.
  destruct (radarOverlayLayers s !! currentFrame s) as [r0|],
           (cloudOverlayLayers s !! currentFrame s) as [c0|];
    apply set_eq; intros h; destruct (decide (h = baseLayer s)) as [->|];
    set_unfold; naive_solver.
Qed.

Lemma revisiting_a_frame_builds_nothing_witness :
  heap (showFrame (Num 0) (run [Next] sample_loaded)) = heap (run [Next] sample_loaded)
  /\ mapLayers (showFrame (Num 0) (run [Next] sample_loaded)) = {[0; 1; 2]}%nat.
Proof.
  destruct (revisiting_a_frame_builds_nothing (run [Next] sample_loaded) (Num 0) 1%nat 2%nat)
    as (H1 & _ & _ & _ & H5).
  - apply (reach_after [] sample_data [Next]).
  - vm_compute. reflexivity.
  - vm_compute. reflexivity.
  - split; [exact H1|exact H5].
Defined.

(** ** The frame index *)

(** Only the two buttons and the timer move the index. *)
Lemma handle_currentFrame e s :
  match e with
  | Prev | Next | Tick _ => True
  | _ => currentFrame (handle e s) = currentFrame s
  end.
Proof.
  destruct e; simpl; try done.
  - unfold playToggle. by destruct (playInterval s) as [| |[|n]].
  - unfold radarStyle_onchange. destruct (radarColorSchemes !! sel) as [id|]; [|done].
    match goal with |- context [addOverlays ?k ?t] =>
      destruct (addOverlays_frames k t) as (_ & _ & ->) end.
    simpl. by rewrite removeOverlays_eq.
  - unfold mapStyle_onchange. destruct (mapStyles !! sel) as [[u attr]|]; [|done].
    unfold tileLayer. simpl.
    match goal with |- context [addOverlays ?k ?t] =>
      destruct (addOverlays_frames k t) as (_ & _ & ->) end.
    done.
Qed.

Lemma nextFrame_NaN s : currentFrame s = NaN -> currentFrame (nextFrame s) = NaN.
Proof.
  intros H. unfold nextFrame.
  destruct (showFrame_frames (js_rem (js_add (currentFrame s) (Num 1)) (frameMax s)) s)
    as (_ & _ & ->).
  by rewrite H.
Qed.

Lemma prevFrame_NaN s : currentFrame s = NaN -> currentFrame (prevFrame s) = NaN.
Proof.
  intros H. unfold prevFrame.
  destruct (showFrame_frames
              (js_rem (js_add (js_sub (currentFrame s) (Num 1)) (frameMax s)) (frameMax s)) s)
    as (_ & _ & ->).
  by rewrite H.
Qed.

Lemma handle_NaN e s : currentFrame s = NaN -> currentFrame (handle e s) = NaN.
Proof.
  intros H. pose proof (handle_currentFrame e s) as He.
  destruct e; simpl in *; try congruence.
  - by apply prevFrame_NaN.
  - by apply nextFrame_NaN.
  - case_bool_decide; [by apply nextFrame_NaN|done].
Qed.

(** X5: once the index is [NaN] (a step taken with an empty catalog) it stays
    [NaN] through every later event and through the arrival of the metadata:
    no button, timer tick or select brings a valid index back. *)
Theorem nan_index_is_permanent (s : State) :
  currentFrame s = NaN ->
  (forall evs, currentFrame (run evs s) = NaN)
  /\ (forall data evs, currentFrame (run evs (fetchRainViewerData data s)) = NaN).
Proof.
  intros H.
  assert (Hrun : forall evs t, currentFrame t = NaN -> currentFrame (run evs t) = NaN).
  { induction evs as [|e evs IH]; intros t Ht; [done|].
    simpl. apply IH. by apply handle_NaN. }
  split; [intros evs; by apply Hrun|].
  intros data evs. apply Hrun. unfold fetchRainViewerData. cbv zeta.
  match goal with |- context [addOverlays ?k ?t] =>
    destruct (addOverlays_frames k t) as (_ & _ & ->) end.
  done.
Qed.

Lemma nan_index_is_permanent_witness :
  currentFrame (run [Prev; RadarStyle "raw"; Next] (run [Next] initial)) = NaN
  /\ currentFrame (run [Next; Prev] (fetchRainViewerData sample_data (run [Next] initial)))
     = NaN.
Proof.
  assert (currentFrame (run [Next] initial) = NaN) as H by (vm_compute; reflexivity).
  destruct (nan_index_is_permanent (run [Next] initial) H) as [H1 H2].
  exact (conj (H1 [Prev; RadarStyle "raw"; Next]) (H2 sample_data [Next; Prev])).
Defined.

Lemma handle_in_range e s :
  index_in_range s ->
  index_in_range (handle e s) /\ maxZ (handle e s) = maxZ s.
Proof.
  intros Hs.
  assert (maxZ (handle e s) = maxZ s) as Hm.
  { unfold maxZ. by destruct (handle_frames e s) as [-> ->]. }
  split; [|done]. pose proof (handle_currentFrame e s) as He.
  pose proof (nav_in_range NavNext s Hs) as [Hn _].
  pose proof (nav_in_range NavPrev s Hs) as [Hp _].
  destruct Hs as (i & Hc & Hi).
  destruct e; try done;
    try (exists i; split; [by rewrite He|by rewrite Hm]).
  simpl. case_bool_decide; [done|]. by exists i.
Qed.

(** X6: an index inside [[0, max)] stays inside it, and [max] stays the same,
    whatever happens next: steps, timer ticks, play/pause, opacity changes,
    and changes of colour scheme or base style. *)
Theorem events_keep_index_in_range (evs : list Event) (s : State) :
  index_in_range s ->
  index_in_range (run evs s) /\ maxZ (run evs s) = maxZ s.
Proof.
  revert s. induction evs as [|e evs IH]; intros s Hs; [done|].
  simpl. destruct (handle_in_range e s Hs) as [H1 H2].
  destruct (IH _ H1) as [H3 H4]. split; [done|]. by rewrite H4.
Qed.

Lemma events_keep_index_in_range_witness :
  index_in_range
    (run [Play; Tick 1; Tick 1; RadarStyle "nexrad"; Prev; MapStyle "cyclosm"] sample_loaded).
Proof.
  destruct (events_keep_index_in_range
              [Play; Tick 1; Tick 1; RadarStyle "nexrad"; Prev; MapStyle "cyclosm"]%nat
              sample_loaded) as [H _].
  - exists 0. split; [reflexivity|]. vm_compute. split; discriminate || reflexivity.
  - exact H.
Defined.

Lemma run_next_steps n s i :
  currentFrame s = Num i -> 0 <= i < maxZ s ->
  currentFrame (run (replicate n Next) s) = Num ((i + Z.of_nat n) mod maxZ s).
Proof.
  revert s i. induction n as [|n IH]; intros s i Hc Hi.
  - simpl. rewrite Z.add_0_r, Z.mod_small by lia. done.
  - change (run (replicate (S n) Next) s) with (run (replicate n Next) (nextFrame s)).
    rewrite (IH (nextFrame s) ((i + 1) mod maxZ s)).
    + rewrite nextFrame_maxZ, Z.add_mod_idemp_l by lia. do 2 f_equal. lia.
    + by apply nextFrame_index.
    + rewrite nextFrame_maxZ. apply Z.mod_pos_bound. lia.
Qed.

Lemma run_prev_steps n s i :
  currentFrame s = Num i -> 0 <= i < maxZ s ->
  currentFrame (run (replicate n Prev) s) = Num ((i - Z.of_nat n) mod maxZ s).
Proof.
  revert s i. induction n as [|n IH]; intros s i Hc Hi.
  - simpl. rewrite Z.sub_0_r, Z.mod_small by lia. done.
  - change (run (replicate (S n) Prev) s) with (run (replicate n Prev) (prevFrame s)).
    rewrite (IH (prevFrame s) ((i - 1 + maxZ s) mod maxZ s)).
    + rewrite prevFrame_maxZ, Zminus_mod_idemp_l. f_equal.
      replace (i - 1 + maxZ s - Z.of_nat n) with (i - Z.of_nat (S n) + 1 * maxZ s) by lia.
      apply Z.mod_add. lia.
    + by apply prevFrame_index.
    + rewrite prevFrame_maxZ. apply Z.mod_pos_bound. lia.
Qed.

(** X7: from a valid index [i], [n] presses of next() lead to
    [(i + n) mod max] and [n] presses of prev() to [(i - n) mod max]; in
    particular [max] presses of either come back to [i]. *)
Theorem stepping_is_addition_modulo_max (n : nat) (s : State) (i : Z) :
  currentFrame s = Num i ->
  0 <= i < maxZ s ->
  currentFrame (run (replicate n Next) s) = Num ((i + Z.of_nat n) mod maxZ s)
  /\ currentFrame (run (replicate n Prev) s) = Num ((i - Z.of_nat n) mod maxZ s)
  /\ currentFrame (run (replicate (Z.to_nat (maxZ s)) Next) s) = Num i
  /\ currentFrame (run (replicate (Z.to_nat (maxZ s)) Prev) s) = Num i.
Proof.
  intros Hc Hi.
  split; [by apply run_next_steps|]. split; [by apply run_prev_steps|].
  rewrite (run_next_steps _ s i Hc Hi), (run_prev_steps _ s i Hc Hi).
  rewrite Z2Nat.id by lia. split; f_equal.
  - replace (i + maxZ s) with (i + 1 * maxZ s) by lia.
    rewrite Z.mod_add by lia. apply Z.mod_small. lia.
  - replace (i - maxZ s) with (i + (-1) * maxZ s) by lia.
    rewrite Z.mod_add by lia. apply Z.mod_small. lia.
Qed.

Lemma stepping_is_addition_modulo_max_witness :
  currentFrame (run (replicate 5 Next) sample_loaded) = Num ((0 + 5) mod maxZ sample_loaded)
  /\ currentFrame (run (replicate 5 Prev) sample_loaded) = Num ((0 - 5) mod maxZ sample_loaded).
Proof.
  assert (currentFrame sample_loaded = Num 0) as Hc by (vm_compute; reflexivity).
  assert (0 <= 0 < maxZ sample_loaded) as Hi by (vm_compute; split; [discriminate|reflexivity]).
  destruct (stepping_is_addition_modulo_max 5 sample_loaded 0 Hc Hi) as (H1 & H2 & _).
  exact (conj H1 H2).
Defined.

(** ** Play and pause *)

Lemma timer_ok_addOverlays k s : timer_ok s -> timer_ok (addOverlays k s).
Proof.
  assert (playInterval (addOverlays k s) = playInterval s
          /\ intervals (addOverlays k s) = intervals s
          /\ lastTimer (addOverlays k s) = lastTimer s) as (H1 & H2 & H3).
  { unfold addOverlays.
    destruct (arr_get (radarFrames s) k) as [rf|]; [|done].
    destruct (arr_get (satelliteFrames s) k) as [sf|]; [|done].
    set (s1 := addRadarOverlay k rf s).
    assert (playInterval s1 = playInterval s /\ intervals s1 = intervals s
            /\ lastTimer s1 = lastTimer s) as (<- & <- & <-).
    { subst s1. destruct (radarOverlayLayers s !! k) as [r|] eqn:E.
      - by rewrite (addRadarOverlay_cached _ _ _ _ E).
      - by rewrite (addRadarOverlay_fresh _ _ _ E). }
    destruct (cloudOverlayLayers s1 !! k) as [c|] eqn:E.
    - by rewrite (addCloudOverlay_cached _ _ _ _ E).
    - by rewrite (addCloudOverlay_fresh _ _ _ E). }
  unfold timer_ok. by rewrite H1, H2, H3.
Qed.

Lemma timer_ok_showFrame k s : timer_ok s -> timer_ok (showFrame k s).
Proof.
  intros H. unfold showFrame. apply timer_ok_addOverlays.
  by rewrite removeOverlays_eq.
Qed.

Lemma timer_ok_playToggle s : timer_ok s -> timer_ok (playToggle s).
Proof.
  unfold timer_ok, playToggle.
  destruct (playInterval s) as [| |[|n]]; simpl; try done.
  - intros ->. split; [set_solver|lia].
  - intros ->. split; [set_solver|lia].
  - intros [-> _]. set_solver.
Qed.

Lemma timer_ok_handle e s : timer_ok s -> timer_ok (handle e s).
Proof.
  intros H. destruct e; simpl.
  - by apply timer_ok_playToggle.
  - by apply timer_ok_showFrame.
  - by apply timer_ok_showFrame.
  - case_bool_decide; [by apply timer_ok_showFrame|done].
  - done.
  - done.
  - unfold radarStyle_onchange. destruct (radarColorSchemes !! sel) as [id|]; [|done].
    cbv zeta. apply timer_ok_addOverlays. by rewrite removeOverlays_eq.
  - unfold mapStyle_onchange. destruct (mapStyles !! sel) as [[u attr]|]; [|done].
    unfold tileLayer. simpl. by apply timer_ok_addOverlays.
Qed.

Lemma timer_ok_run evs s : timer_ok s -> timer_ok (run evs s).
Proof.
  revert s. induction evs as [|e evs IH]; intros s H; [done|].
  simpl. apply IH. by apply timer_ok_handle.
Qed.

Lemma reachable_timer_ok s : reachable s -> timer_ok s.
Proof.
  assert (timer_ok initial) as H0 by done.
  intros [pre|pre data post].
  - by apply timer_ok_run.
  - apply timer_ok_run. unfold fetchRainViewerData. cbv zeta.
    apply timer_ok_addOverlays. by apply (timer_ok_run pre initial).
Qed.

(** X8: at most one interval timer runs at any time: while [playInterval]
    holds a timer id, that timer and no other is running, and each of its
    ticks acts as next(); while it is [undefined] or [null], none is running,
    and a tick that still arrives from a cancelled timer does nothing. *)
Theorem at_most_one_timer (s : State) :
  reachable s ->
  match playInterval s with
  | Val id =>
      id <> 0%nat /\ intervals s = {[id]} /\ handle (Tick id) s = nextFrame s
  | _ => intervals s = ∅ /\ forall id, handle (Tick id) s = s
  end.
Proof.
  intros Hs. pose proof (reachable_timer_ok s Hs) as H. unfold timer_ok in H.
  destruct (playInterval s) as [| |[|n]]; try done.
  - split; [done|]. intros id. simpl. rewrite H. by case_bool_decide; [set_solver|].
  - split; [done|]. intros id. simpl. rewrite H. by case_bool_decide; [set_solver|].
  - destruct H as [H _]. repeat split; [done..|].
    simpl. rewrite H. by case_bool_decide; [|set_solver].
Qed.

Lemma at_most_one_timer_witness :
  intervals (run [Play; Next; Play; Play] sample_loaded) = {[2%nat]}.
Proof.
  pose proof (at_most_one_timer (run [Play; Next; Play; Play] sample_loaded)
                (reach_after [] sample_data [Play; Next; Play; Play])) as H.
  assert (playInterval (run [Play; Next; Play; Play] sample_loaded) = Val 2%nat) as E
    by (vm_compute; reflexivity).
  rewrite E in H. destruct H as (_ & H & _). exact H.
Defined.

(** X9: pressing play and then pause (two toggles from a paused page) starts
    one timer and cancels it again: no timer is left running, [playInterval]
    is [null], and nothing else changes but the count of timers handed out. *)
Theorem play_then_pause (s : State) :
  reachable s ->
  paused s ->
  playToggle (playToggle s) = set_playInterval Null (set_lastTimer (S (lastTimer s)) s)
  /\ intervals (playToggle (playToggle s)) = ∅
  /\ intervals (playToggle s) = {[S (lastTimer s)]}.
Proof.
  intros Hs Hp. pose proof (reachable_timer_ok s Hs) as H.
  unfold timer_ok, paused in *.
  assert (intervals s = ∅) as Hi by by destruct (playInterval s) as [| |[|n]].
  clear H Hs. destruct s as [hp m iv lt b rc cc cf pi rf sf host ro co sch sm sn ext].
  simpl in *. subst iv. unfold playToggle.
  assert (({[S lt]} ∪ ∅) ∖ {[S lt]} = (∅ : gset nat)) as E by set_solver.
  destruct pi as [| |[|n]]; try done; simpl; rewrite E;
    (repeat split; try done; set_solver).
Qed.

Lemma play_then_pause_witness :
  intervals (playToggle (playToggle sample_loaded)) = ∅
  /\ intervals (playToggle sample_loaded) = {[1%nat]}.
Proof.
  destruct (play_then_pause sample_loaded) as (_ & H2 & H3).
  - exact (reachable_loaded sample_data).
  - vm_compute. exact Logic.I.
  - exact (conj H2 H3).
Defined.

(** ** Layer objects *)

Lemma heap_keeps_refl s : heap_keeps s s.
Proof. intros h l Hl. by exists l. Qed.

Lemma heap_keeps_same s s' : heap s' = heap s -> heap_keeps s s'.
Proof. intros E h l Hl. exists l. by rewrite E. Qed.

Lemma heap_keeps_trans s1 s2 s3 : heap_keeps s1 s2 -> heap_keeps s2 s3 -> heap_keeps s1 s3.
Proof.
  intros H12 H23 h l Hl. destruct (H12 h l Hl) as (l2 & Hl2 & Hu2 & Ha2).
  destruct (H23 h l2 Hl2) as (l3 & Hl3 & Hu3 & Ha3). exists l3.
  repeat split; congruence.
Qed.

Lemma heap_keeps_app s s' new : heap s' = heap s ++ new -> heap_keeps s s'.
Proof.
  intros E h l Hl. exists l. rewrite E. split; [by apply lookup_app_l_Some|done].
Qed.

Lemma heap_keeps_addOverlays k s : heap_keeps s (addOverlays k s).
Proof.
  destruct (addOverlays_grows k s) as (_ & _ & _ & _ & new & E).
  by apply (heap_keeps_app _ _ new).
Qed.

Lemma heap_keeps_showFrame k s : heap_keeps s (showFrame k s).
Proof.
  unfold showFrame. eapply heap_keeps_trans; [|apply heap_keeps_addOverlays].
  rewrite removeOverlays_eq. by apply heap_keeps_same.
Qed.

Lemma heap_keeps_forEach arr v s s' :
  heap s' = forEach_setOpacity arr v (heap s) -> heap_keeps s s'.
Proof.
  intros E h l Hl. rewrite E.
  destruct (visit_all_lookup v (map_to_list arr) (heap s) h) as [H|H].
  - exists l. split; [|done]. by rewrite <- Hl.
  - exists (Layer_setOpacity v l). split; [|done].
    unfold forEach_setOpacity. unfold visit_all in H. by rewrite H, Hl.
Qed.

Lemma heap_keeps_handle e s : heap_keeps s (handle e s).
Proof.
  destruct e; simpl.
  - unfold playToggle. destruct (playInterval s) as [| |[|n]]; by apply heap_keeps_same.
  - apply heap_keeps_showFrame.
  - apply heap_keeps_showFrame.
  - case_bool_decide; [apply heap_keeps_showFrame|apply heap_keeps_refl].
  - by apply (heap_keeps_forEach (radarOverlayLayers s) v).
  - by apply (heap_keeps_forEach (cloudOverlayLayers s) v).
  - unfold radarStyle_onchange. destruct (radarColorSchemes !! sel) as [id|];
      [|apply heap_keeps_refl].
    cbv zeta. eapply heap_keeps_trans; [|apply heap_keeps_addOverlays].
    rewrite removeOverlays_eq. by apply heap_keeps_same.
  - unfold mapStyle_onchange. destruct (mapStyles !! sel) as [[u attr]|];
      [|apply heap_keeps_refl].
    unfold tileLayer. simpl.
    eapply heap_keeps_trans; [|apply heap_keeps_addOverlays].
    by eapply heap_keeps_app.
Qed.

(** X10: a layer object is never dropped from the heap and never gets another
    tile URL or attribution: whatever events follow, and also when the
    metadata arrives, it keeps the URL it was built with (only its opacity can
    change). *)
Theorem layer_urls_never_change (evs : list Event) (s : State) (h : nat) (l : Layer) :
  heap s !! h = Some l ->
  (exists l', heap (run evs s) !! h = Some l'
              /\ url l' = url l /\ attribution l' = attribution l)
  /\ (forall data,
        exists l', heap (fetchRainViewerData data s) !! h = Some l'
                   /\ url l' = url l /\ attribution l' = attribution l).
Proof.
  intros Hl. split.
  - revert s l Hl. induction evs as [|e evs IH]; intros s l Hl; [by exists l|].
    simpl. destruct (heap_keeps_handle e s h l Hl) as (l1 & Hl1 & Hu1 & Ha1).
    destruct (IH _ _ Hl1) as (l2 & ? & ? & ?). exists l2. repeat split; congruence.
  - intros data. unfold fetchRainViewerData. cbv zeta.
    match goal with |- context [addOverlays ?k ?t] =>
      apply (heap_keeps_addOverlays k t h l) end.
    exact Hl.
Qed.

Lemma layer_urls_never_change_witness :
  exists l',
    heap (run [RadarStyle "raw"; OpacityRain 0.3%Q; Next] sample_loaded) !! 1%nat = Some l'
    /\ url l' = "https://tilecache.rainviewer.com/v2/radar/100/256/{z}/{x}/{y}/2/1_1.webp"
    /\ attribution l' = None.
Proof.
  assert (heap sample_loaded !! 1%nat
          = Some (radar_layer sample_loaded sample_radar1)) as H
    by (vm_compute; reflexivity).
  destruct (layer_urls_never_change [RadarStyle "raw"; OpacityRain 0.3%Q; Next]
              sample_loaded 1%nat _ H) as [H1 _].
  exact H1.
Defined.

(** X11: the radar slider changes no satellite layer and not the base layer,
    and the satellite slider changes no radar layer and not the base layer. *)
Theorem opacity_slider_leaves_other_layers (s : State) (v : Q) :
  reachable s ->
  (forall k h, cloudOverlayLayers s !! k = Some h ->
     heap (opacityRain_oninput v s) !! h = heap s !! h)
  /\ heap (opacityRain_oninput v s) !! baseLayer s = heap s !! baseLayer s
  /\ (forall k h, radarOverlayLayers s !! k = Some h ->
        heap (opacityCloud_oninput v s) !! h = heap s !! h)
  /\ heap (opacityCloud_oninput v s) !! baseLayer s = heap s !! baseLayer s.
Proof.
  intros Hs. pose proof (reachable_Inv s Hs) as I. simpl. repeat split.
  - intros k h Hk. apply forEach_setOpacity_other.
    intros k' Hk'. apply (inv_disjoint s I k' k h Hk' Hk).
  - apply forEach_setOpacity_other. apply (inv_base_radar s I).
  - intros k h Hk. apply forEach_setOpacity_other.
    intros k' Hk'. apply (inv_disjoint s I k k' h Hk Hk').
  - apply forEach_setOpacity_other. apply (inv_base_cloud s I).
Qed.

Lemma opacity_slider_leaves_other_layers_witness :
  heap (opacityRain_oninput 0.3%Q sample_loaded) !! baseLayer sample_loaded
  = heap sample_loaded !! baseLayer sample_loaded
  /\ heap (opacityCloud_oninput 0.3%Q sample_loaded) !! baseLayer sample_loaded
     = heap sample_loaded !! baseLayer sample_loaded.
Proof.
  destruct (opacity_slider_leaves_other_layers sample_loaded 0.3%Q
              (reachable_loaded sample_data)) as (_ & H2 & _ & H4).
  exact (conj H2 H4).
Defined.

(** X12: in every reachable state a cached layer sits under an integer key in
    [[0, max)] and is exactly the layer the current host, options and opacity
    give for the frame of that index: no cache entry is ever stale. *)
Theorem cache_is_never_stale (s : State) :
  reachable s ->
  (forall k h, radarOverlayLayers s !! k = Some h ->
     exists z f,
       k = Num z /\ 0 <= z < maxZ s
       /\ radarFrames s !! Z.to_nat z = Some f
       /\ heap s !! h = Some {| url := buildRadarTileUrl s f;
                                opacity := rainOpacity s;
                                attribution := None |})
  /\ (forall k h, cloudOverlayLayers s !! k = Some h ->
        exists z f,
          k = Num z /\ 0 <= z < maxZ s
          /\ satelliteFrames s !! Z.to_nat z = Some f
          /\ heap s !! h = Some {| url := buildSatelliteTileUrl s f;
                                   opacity := cloudOpacity s;
                                   attribution := None |}).
Proof.
  intros Hs. pose proof (reachable_Inv s Hs) as I.
  assert (Hidx : forall (k : jsnum) (f g : Frame),
            arr_get (radarFrames s) k = Some f -> arr_get (satelliteFrames s) k = Some g ->
            exists z, k = Num z /\ 0 <= z < maxZ s
                      /\ radarFrames s !! Z.to_nat z = Some f
                      /\ satelliteFrames s !! Z.to_nat z = Some g).
  { intros [z|] f g; [|done]. simpl. case_decide; [|done]. intros Hf Hg.
    exists z. repeat split; [done| |done..].
    apply lookup_lt_Some in Hf, Hg. unfold maxZ. lia. }
  split.
  - intros k h Hk. destruct (inv_radar s I k h Hk) as (f & Hf & [g Hg] & Hh).
    destruct (Hidx k f g Hf Hg) as (z & -> & Hz & Hf' & _). by exists z, f.
  - intros k h Hk. destruct (inv_cloud s I k h Hk) as (g & Hg & [f Hf] & Hh).
    destruct (Hidx k f g Hf Hg) as (z & -> & Hz & _ & Hg'). by exists z, g.
Qed.

Lemma cache_is_never_stale_witness :
  exists z f,
    Num 1 = Num z /\ 0 <= z < maxZ (run [Next; OpacityRain 0.3%Q; RadarStyle "raw"] sample_loaded)
    /\ radarFrames (run [Next; OpacityRain 0.3%Q; RadarStyle "raw"] sample_loaded)
         !! Z.to_nat z = Some f
    /\ heap (run [Next; OpacityRain 0.3%Q; RadarStyle "raw"] sample_loaded) !! 5%nat
       = Some {| url := buildRadarTileUrl
                          (run [Next; OpacityRain 0.3%Q; RadarStyle "raw"] sample_loaded) f;
                 opacity := rainOpacity
                              (run [Next; OpacityRain 0.3%Q; RadarStyle "raw"] sample_loaded);
                 attribution := None |}.
Proof.
  destruct (cache_is_never_stale (run [Next; OpacityRain 0.3%Q; RadarStyle "raw"] sample_loaded))
    as [H _].
  - apply (reach_after [] sample_data [Next; OpacityRain 0.3%Q; RadarStyle "raw"]).
  - apply (H (Num 1) 5%nat). vm_compute. reflexivity.
Defined.

(** ** The base style *)

Lemma addOverlays_missing k s :
  arr_get (radarFrames s) k = None \/ arr_get (satelliteFrames s) k = None ->
  addOverlays k s = s.
Proof.
  intros H. unfold addOverlays. destruct H as [-> | H]; [done|].
  rewrite H. by destruct (arr_get (radarFrames s) k).
Qed.

Lemma addOverlays_attached k s r c :
  radarOverlayLayers s !! k = Some r -> cloudOverlayLayers s !! k = Some c ->
  r ∈ mapLayers s -> c ∈ mapLayers s ->
  addOverlays k s = s.
Proof.
  intros Hr Hc Hrm Hcm. unfold addOverlays.
  destruct (arr_get (radarFrames s) k) as [rf|]; [|done].
  destruct (arr_get (satelliteFrames s) k) as [sf|]; [|done].
  rewrite (addRadarOverlay_cached _ _ _ _ Hr), (map_addLayer_attached _ _ Hrm).
  by rewrite (addCloudOverlay_cached _ _ _ _ Hc), (map_addLayer_attached _ _ Hcm).
Qed.

(** X13: choosing a base style that [mapStyles] has replaces the base layer
    and nothing else: the old base layer leaves the map, one new layer with
    the style's URL and attribution (and full opacity) is made, attached and
    becomes [baseLayer]; overlays on the map, both caches, the index and the
    options are as before.  A value [mapStyles] does not have changes
    nothing. *)
Theorem mapStyle_onchange_replaces_base_layer (s : State) (sel : string) :
  reachable s ->
  match mapStyles !! sel with
  | Some (u, attr) =>
      mapStyle_onchange sel s
      = set_baseLayer (length (heap s))
          (set_mapLayers ({[length (heap s)]} ∪ mapLayers s ∖ {[baseLayer s]})
             (set_heap (heap s ++ [{| url := u; opacity := 1%Q; attribution := Some attr |}])
                s))
  | None => mapStyle_onchange sel s = s
  end.
Proof.
  intros Hs. pose proof (reachable_Inv s Hs) as I. pose proof (reachable_Shown s Hs) as Sh.
  unfold mapStyle_onchange. destruct (mapStyles !! sel) as [[u attr]|]; [|done].
  unfold tileLayer. simpl.
  pose proof (shown_frame s Sh) as Hf.
  destruct (arr_get (radarFrames s) (currentFrame s)) as [rf|] eqn:Er;
    [destruct (arr_get (satelliteFrames s) (currentFrame s)) as [sf|] eqn:Es|].
  - destruct Hf as (r & c & Hr & Hc & Hrm & Hcm).
    pose proof (inv_base_radar s I (currentFrame s)) as B1.
    pose proof (inv_base_cloud s I (currentFrame s)) as B2.
    apply (addOverlays_attached _ _ r c); simpl; [done|done|..];
      apply elem_of_union_r, elem_of_difference; (split; [done|]);
      intros ->%elem_of_singleton; congruence.
  - apply addOverlays_missing. by right.
  - apply addOverlays_missing. by left.
Qed.

Lemma mapStyle_onchange_replaces_base_layer_witness :
  mapStyle_onchange "tracestrack" sample_loaded
  = set_baseLayer (length (heap sample_loaded))
      (set_mapLayers ({[length (heap sample_loaded)]}
                      ∪ mapLayers sample_loaded ∖ {[baseLayer sample_loaded]})
         (set_heap (heap sample_loaded
                    ++ [{| url := "https://tile.tracestrack.org/{z}/{x}/{y}.png";
                           opacity := 1%Q;
                           attribution := Some "&copy; TracesTrack" |}])
            sample_loaded)).
Proof.
  pose proof (mapStyle_onchange_replaces_base_layer sample_loaded "tracestrack"
                (reachable_loaded sample_data)) as H.
  assert (mapStyles !! "tracestrack"
          = Some ("https://tile.tracestrack.org/{z}/{x}/{y}.png", "&copy; TracesTrack")) as E
    by (vm_compute; reflexivity).
  rewrite E in H. exact H.
Defined.

(** ** The scheme in the URL *)

Lemma string_app_cons c a b : String c a +:+ b = String c (a +:+ b).
Proof. reflexivity. Qed.

Lemma string_length_app a b :
  String.length (a +:+ b) = (String.length a + String.length b)%nat.
Proof.
  induction a as [|c a IH]; [done|].
  rewrite string_app_cons. simpl. by rewrite IH.
Qed.

Lemma string_app_inv_tail a b t : a +:+ t = b +:+ t -> a = b.
Proof.
  revert b. induction a as [|c a IH]; intros [|d b] H.
  - done.
  - apply (f_equal String.length) in H.
    rewrite !string_length_app in H. simpl in H. lia.
  - apply (f_equal String.length) in H.
    rewrite !string_length_app in H. simpl in H. lia.
  - rewrite !string_app_cons in H. injection H as -> H. f_equal. by apply IH.
Qed.

(** X14: the radar tile URL tells the colour schemes apart: for the same host,
    frame, flags and format, two different scheme ids give two different
    URLs. *)
Theorem radar_url_tells_schemes_apart (s : State) (frame : Frame) (a b : nat) :
  a <> b ->
  buildRadarTileUrl (set_optionColorScheme a s) frame
  <> buildRadarTileUrl (set_optionColorScheme b s) frame.
Proof.
  intros Hab H. apply Hab. unfold buildRadarTileUrl in H. simpl in H.
  do 5 apply (inj (String.app _)) in H.
  apply string_app_inv_tail in H. by apply (inj pretty) in H.
Qed.

Lemma radar_url_tells_schemes_apart_witness :
  2%nat <> 0%nat
  /\ buildRadarTileUrl (set_optionColorScheme 2 sample_loaded) sample_radar1
     <> buildRadarTileUrl (set_optionColorScheme 0 sample_loaded) sample_radar1.
Proof.
  assert (2%nat <> 0%nat) as H by lia.
  exact (conj H (radar_url_tells_schemes_apart sample_loaded sample_radar1 2 0 H)).
Defined.

(** ** The size of the caches *)

Lemma keys_below_size (m : gmap jsnum nat) (n : nat) :
  (forall k h, m !! k = Some h -> exists z, k = Num z /\ 0 <= z < Z.of_nat n) ->
  (size m <= n)%nat.
Proof.
  intros Hk.
  assert (dom m ⊆ list_to_set ((fun i => Num (Z.of_nat i)) <$> seq 0 n)) as Hsub.
  { intros k [h Hh]%elem_of_dom. destruct (Hk k h Hh) as (z & -> & Hz).
    apply elem_of_list_to_set, list_elem_of_fmap. exists (Z.to_nat z).
    split; [f_equal; lia|]. apply elem_of_seq. lia. }
  apply subseteq_size in Hsub. rewrite size_dom in Hsub.
  rewrite size_list_to_set, length_fmap, length_seq in Hsub; [done|].
  apply NoDup_fmap_2; [|apply NoDup_seq].
  intros i j H. injection H as H. lia.
Qed.

(** X15: a cache never holds more layers than there are frames to show: in
    every reachable state each of the two caches has at most
    [max = min(len(radarFrames), len(satelliteFrames))] entries. *)
Theorem caches_hold_at_most_max_layers (s : State) :
  reachable s ->
  (Z.of_nat (size (radarOverlayLayers s)) <= maxZ s)
  /\ (Z.of_nat (size (cloudOverlayLayers s)) <= maxZ s).
Proof.
  intros Hs. pose proof (reachable_Inv s Hs) as I.
  assert (Hidx : forall (k : jsnum),
            is_Some (arr_get (radarFrames s) k) -> is_Some (arr_get (satelliteFrames s) k) ->
            exists z, k = Num z /\ 0 <= z < Z.of_nat (Z.to_nat (maxZ s))).
  { intros [z|] [f Hf] [g Hg]; [|done]. simpl in Hf, Hg. case_decide; [|done].
    exists z. split; [done|].
    apply lookup_lt_Some in Hf, Hg. unfold maxZ. lia. }
  assert (0 <= maxZ s) as Hm by (unfold maxZ; lia).
  split.
  - assert (size (radarOverlayLayers s) <= Z.to_nat (maxZ s))%nat; [|lia].
    apply keys_below_size. intros k h Hk.
    destruct (inv_radar s I k h Hk) as (f & Hf & Hg & _). apply Hidx; eauto.
  - assert (size (cloudOverlayLayers s) <= Z.to_nat (maxZ s))%nat; [|lia].
    apply keys_below_size. intros k h Hk.
    destruct (inv_cloud s I k h Hk) as (f & Hf & Hg & _). apply Hidx; eauto.
Qed.

Lemma caches_hold_at_most_max_layers_witness :
  Z.of_nat (size (radarOverlayLayers (run [Next; Next; Prev; Next] sample_loaded)))
  <= maxZ (run [Next; Next; Prev; Next] sample_loaded)
  /\ Z.of_nat (size (cloudOverlayLayers (run [Next; Next; Prev; Next] sample_loaded)))
     <= maxZ (run [Next; Next; Prev; Next] sample_loaded).
Proof.
  apply (caches_hold_at_most_max_layers (run [Next; Next; Prev; Next] sample_loaded)).
  apply (reach_after [] sample_data [Next; Next; Prev; Next]).
Defined.
